(** * abapPretty: the synchronisation orchestrator of [src/main.ts]

    A shallow embedding of class [Main] (methods [tryLock],
    [validateTransport], [activate], [write], [format], [processInclude],
    [stats], [processObjects] and [list]) together with the properties the
    specification states about them.

    The remote ADT client, the include expander, the abaplint formatter and
    the file system are collaborators of [Main]: they are gathered in a
    record [Env] of transition functions over an abstract remote state, so
    every theorem holds for every behaviour of the collaborators. *)

From Stdlib Require Import String Ascii List Bool Arith Lia.
From Stdlib Require Import Decimal DecimalString.
Import ListNotations.
Local Open Scope string_scope.
Local Open Scope list_scope.

(** ** JavaScript values used by the program

    A JavaScript string is a sequence of code units; the model keeps the
    code units below 256, one [ascii] each. *)
Module Js.

(** [!!s] for a value that is a string or [undefined]. *)
Definition truthy (s : option string) : bool :=
  match s with
  | Some s => negb (s =? EmptyString)
  | None => false
  end.

(** [a === b] for two values that are strings or [undefined]. *)
Definition strict_eq (a b : option string) : bool :=
  match a, b with
  | Some x, Some y => x =? y
  | None, None => true
  | _, _ => false
  end.

(** [`${s}`] inside a template literal. *)
Definition show (s : option string) : string :=
  match s with
  | Some s => s
  | None => "undefined"
  end.

(** [`${n}`] for a non-negative integer. *)
Definition show_number (n : nat) : string :=
  NilEmpty.string_of_uint (Nat.to_uint n).

(** [a || b] on strings that may be [undefined]. *)
Definition or_else (a : option string) (b : string) : string :=
  match a with
  | Some s => if s =? EmptyString then b else s
  | None => b
  end.

(** The class [\s] on code units below 256: TAB, LF, VT, FF, CR, SPACE
    and NO-BREAK SPACE. *)
Definition is_space (c : ascii) : bool :=
  let n := nat_of_ascii c in
  ((9 <=? n)%nat && (n <=? 13)%nat) || (n =? 32)%nat || (n =? 160)%nat.

(** A non-empty array of strings: [split] never returns an empty array
    for the separators used here. *)
Definition pieces : Type := (string * list string)%type.

Definition to_list (p : pieces) : list string := fst p :: snd p.

(** [s.split(sep)] for a separator of one character. *)
Fixpoint split_on (sep : ascii) (s : string) : pieces :=
  match s with
  | EmptyString => (EmptyString, [])
  | String c r =>
      let (p, ps) := split_on sep r in
      if Ascii.eqb c sep then (EmptyString, p :: ps) else (String c p, ps)
  end.

(** [s.split(/\s+/)]: the pieces between maximal runs of white space;
    [in_ws] tells that the previous character belonged to a separator. *)
Fixpoint split_ws_from (in_ws : bool) (s : string) : pieces :=
  match s with
  | EmptyString => (EmptyString, [])
  | String c r =>
      if is_space c then
        if in_ws then split_ws_from true r
        else (EmptyString, to_list (split_ws_from true r))
      else let (p, ps) := split_ws_from false r in (String c p, ps)
  end.

(** [s.split(/\s+/, 3)]: at most three pieces are kept. *)
Definition split_ws3 (s : string) : pieces :=
  let (p, ps) := split_ws_from false s in (p, firstn 2 ps).

(** [s.match(/c/)] for one literal character, as a truth value. *)
Fixpoint contains_char (c : ascii) (s : string) : bool :=
  match s with
  | EmptyString => false
  | String d r => Ascii.eqb c d || contains_char c r
  end.

(** Case folding of the [i] flag, as far as a pattern of ASCII letters
    can tell: only [a]..[z] fold onto [A]..[Z]. *)
Definition fold_case (c : ascii) : ascii :=
  let n := nat_of_ascii c in
  if ((97 <=? n)%nat && (n <=? 122)%nat) then ascii_of_nat (n - 32) else c.

Fixpoint prefix_ci (p s : string) : bool :=
  match p, s with
  | EmptyString, _ => true
  | String a p', String b s' =>
      Ascii.eqb (fold_case a) (fold_case b) && prefix_ci p' s'
  | String _ _, EmptyString => false
  end.

(** [s.match(/p/i)] for a pattern [p] of literal ASCII letters, as a
    truth value. *)
Fixpoint match_ci (p s : string) : bool :=
  prefix_ci p s ||
  match s with
  | EmptyString => false
  | String _ r => match_ci p r
  end.

(** [xs.filter((x, i) => f(x, i))], counting from [i]. *)
Fixpoint filter_from {A} (f : A -> nat -> bool) (i : nat) (xs : list A)
  : list A :=
  match xs with
  | [] => []
  | x :: r =>
      if f x i then x :: filter_from f (S i) r else filter_from f (S i) r
  end.

End Js.


Definition TAB : string := String (ascii_of_nat 9) EmptyString.
Definition NL : string := String (ascii_of_nat 10) EmptyString.
Definition LF : ascii := ascii_of_nat 10.
Definition SLASH : ascii := ascii_of_nat 47.

(** ** Data model *)

(** Modelled from the spec: [AbapObject], declared in [lib/abap], which is
    not among the sources; the object descriptor of the specification, with
    the fields [Main] reads. *)
Record AbapObject := {
  obj_type : string;
  obj_name : string;
  obj_url : option string
}.

(** Modelled from the spec: [AbapInclude], declared in [lib/abap], which is
    not among the sources; a unit with readable and writable source. *)
Record AbapInclude := {
  incl_type : string;
  incl_name : string;
  sourceUrl : string;
  metaUrl : string
}.

(** [AdtLock] of abap-adt-api, with the fields [Main] reads.  The handle
    and the transport number are tested for truthiness by the code, so
    both an absent and an empty value are represented. *)
Record AdtLock := {
  LOCK_HANDLE : option string;
  CORRNR : option string;
  IS_LOCAL : bool
}.

(** [Options] *)
Record Options := {
  test : bool;
  transport : option string
}.

(** Modelled from the spec: [ListOptions], declared in [lib/common], which
    is not among the sources; the two options [list] reads. *)
Record ListOptions := {
  file : option string;
  recursive : bool
}.

(** An object that activation left inactive. *)
Record InactiveObject := {
  io_uri : string;
  io_type : string;
  io_name : string
}.

(** An entry of [ActivationResult.inactive]: the object and the transport
    it sits in, either of which may be missing. *)
Record InactiveObjectRecord := {
  io_object : option InactiveObject;
  io_transport : option InactiveObject
}.

Record ActivationResultMessage := {
  shortText : string
}.

(** [ActivationResult] of abap-adt-api. *)
Record ActivationResult := {
  success : bool;
  messages : list ActivationResultMessage;
  inactive : list InactiveObjectRecord
}.

(** An entry of the answer of [mainPrograms]. *)
Record MainInclude := {
  adtcore_uri : string
}.

(** What JavaScript code throws here: an [Error] object.  [err_type] is the
    [type] property that the exceptions of abap-adt-api carry (absent on
    other errors), [err_message] the [message] every [Error] has. *)
Record JsError := {
  err_type : option string;
  err_message : string
}.

(** [Status] *)
Record Status := {
  currentObject : option AbapObject;
  currentInclude : option AbapInclude;
  processedObjects : nat;
  processedIncludes : nat;
  writtenIncludes : nat
}.

(** The initial value of the field [status] of [Main]. *)
Definition initial_status : Status :=
  {| currentObject := None; currentInclude := None;
     processedObjects := 0; processedIncludes := 0; writtenIncludes := 0 |}.

Inductive session_types := stateful | stateless.

(** Every call that leaves [Main]: remote calls of the ADT client, calls of
    the other modules of the repository, and console output. *)
Inductive Event :=
| ELock (url : string)
| EUnLock (url : string) (handle : option string)
| ESetObjectSource (url source : string) (handle transport : option string)
| EGetObjectSource (url : string)
| EPrettyPrinter (source : string)
| EAbapLintPrettyPrint (incl : AbapInclude) (source : string)
| ELoadAbapLintConfig (path : string)
| EMainPrograms (url : string)
| EActivate (name url : string) (mainInclude : option string)
| EActivateObjects (objects : list InactiveObject)
| EExpand (o : AbapObject)
| ESetSession (mode : session_types)
| EDropSession
| EReadFile (path : string)
| EListQuery (type name : string) (recursive : bool)
| EActionStart (action : string) (status : option string)
| EActionStop (msg : option string)
| ELog (msg : string).

(** An observation: a call together with the value of [this.status] at the
    moment of the call. *)
Record Obs := {
  ev : Event;
  at_status : Status
}.

Definition Res (A : Type) : Type := (JsError + A)%type.

Definition is_error {A} (r : Res A) : bool :=
  match r with inl _ => true | inr _ => false end.

(** ** The collaborators

    [R] is the state of everything outside the process (the SAP system and
    the file system).  A call takes that state to an outcome (a thrown
    error or a result) and a new state.

    The ADT client and its helper [inactiveObjectsInResults] belong to the
    library abap-adt-api.  The modules [lib/abap], [lib/common] and
    [lib/abaplintprettyprint] belong to the repository but are not among
    the sources: what [Main] imports from them ([expand], [list],
    [supportedType], [ABAPLINT_DEFAULT], [loadAbapLintConfig],
    [abapLintprettyPrint]) is taken as a parameter here.  [tick] stands for
    the green check mark and [bold] for [chalk.bold]. *)
Record Env (R : Type) := {
  (* ADTClient *)
  client_lock : string -> R -> Res AdtLock * R;
  client_unLock : string -> option string -> R -> Res unit * R;
  client_setObjectSource :
    string -> string -> option string -> option string -> R -> Res unit * R;
  client_getObjectSource : string -> R -> Res string * R;
  client_prettyPrinter : string -> R -> Res string * R;
  client_mainPrograms : string -> R -> Res (list MainInclude) * R;
  client_activate :
    string -> string -> option string -> R -> Res ActivationResult * R;
  client_activate_objects :
    list InactiveObject -> R -> Res ActivationResult * R;
  client_dropSession : R -> Res unit * R;
  inactiveObjectsInResults : ActivationResult -> list InactiveObject;
  (* lib/abap *)
  expand : AbapObject -> R -> Res (list AbapInclude) * R;
  list_query :
    string -> string -> bool -> R -> (list string * Res (list AbapObject)) * R;
  supportedType : string -> bool;
  (* lib/abaplintprettyprint and lib/common *)
  loadAbapLintConfig : string -> R -> Res unit * R;
  abapLintprettyPrint : AbapInclude -> string -> R -> Res string * R;
  ABAPLINT_DEFAULT : string;
  (* fs, chalk *)
  readFileSync : string -> R -> Res string * R;
  tick : string;
  bold : string -> string
}.

Arguments client_lock {R}.
Arguments client_unLock {R}.
Arguments client_setObjectSource {R}.
Arguments client_getObjectSource {R}.
Arguments client_prettyPrinter {R}.
Arguments client_mainPrograms {R}.
Arguments client_activate {R}.
Arguments client_activate_objects {R}.
Arguments client_dropSession {R}.
Arguments inactiveObjectsInResults {R}.
Arguments expand {R}.
Arguments list_query {R}.
Arguments supportedType {R}.
Arguments loadAbapLintConfig {R}.
Arguments abapLintprettyPrint {R}.
Arguments ABAPLINT_DEFAULT {R}.
Arguments readFileSync {R}.
Arguments tick {R}.
Arguments bold {R}.

(** ** The state of a run and the monad of [Main]'s methods *)

Record World (R : Type) := {
  status : Status;
  session : session_types;
  remote : R;
  trace : list Obs
}.

Arguments status {R}.
Arguments session {R}.
Arguments remote {R}.
Arguments trace {R}.

(** The calls made so far, oldest first. *)
Definition calls {R} (w : World R) : list Event := map ev (trace w).

Definition M (R A : Type) : Type := World R -> World R * Res A.

Definition ret {R A} (a : A) : M R A := fun w => (w, inr a).

Definition throw {R A} (e : JsError) : M R A := fun w => (w, inl e).

Definition bind {R A B} (m : M R A) (k : A -> M R B) : M R B :=
  fun w =>
    match m w with
    | (w', inr a) => k a w'
    | (w', inl e) => (w', inl e)
    end.

Declare Scope js_scope.
Delimit Scope js_scope with js.
Notation "x <- m ;; k" := (bind m (fun x => k))
  (at level 61, m at next level, right associativity) : js_scope.
Notation "m ;; k" := (bind m (fun _ => k))
  (at level 61, right associativity) : js_scope.

(** [try { m } catch (error) { h error }] *)
Definition try_catch {R A} (m : M R A) (h : JsError -> M R A) : M R A :=
  fun w =>
    match m w with
    | (w', inl e) => h e w'
    | (w', inr a) => (w', inr a)
    end.

(** [try { m } finally { f }]: the completion of [m] stands, unless [f]
    itself throws. *)
Definition try_finally {R A} (m : M R A) (f : M R unit) : M R A :=
  fun w =>
    let (w', r) := m w in
    match f w' with
    | (w'', inl e) => (w'', inl e)
    | (w'', inr _) => (w'', r)
    end.

(** A result computed without touching the state. *)
Definition lift {R A} (r : Res A) : M R A := fun w => (w, r).

Definition observe {R} (e : Event) (w : World R) : list Obs :=
  trace w ++ [{| ev := e; at_status := status w |}].

(** A call to a collaborator. *)
Definition call {R A} (e : Event) (op : R -> Res A * R) : M R A :=
  fun w =>
    let (r, rem) := op (remote w) in
    ({| status := status w; session := session w; remote := rem;
        trace := observe e w |}, r).

(** Console output. *)
Definition emit {R} (e : Event) : M R unit :=
  fun w =>
    ({| status := status w; session := session w; remote := remote w;
        trace := observe e w |}, inr tt).

Definition get_status {R} : M R Status := fun w => (w, inr (status w)).

Definition modify_status {R} (f : Status -> Status) : M R unit :=
  fun w =>
    ({| status := f (status w); session := session w; remote := remote w;
        trace := trace w |}, inr tt).

(** [this.client.stateful = mode] *)
Definition set_session {R} (mode : session_types) : M R unit :=
  fun w =>
    ({| status := status w; session := mode; remote := remote w;
        trace := observe (ESetSession mode) w |}, inr tt).

(** [cli.error(msg)] throws an error carrying [msg]. *)
Definition CLIError (msg : string) : JsError :=
  {| err_type := None; err_message := msg |}.

Definition cli_error {R A} (msg : string) : M R A := throw (CLIError msg).

Definition cli_action_start {R} (action : string) (st : option string)
  : M R unit := emit (EActionStart action st).

Definition cli_action_stop {R} (msg : option string) : M R unit :=
  emit (EActionStop msg).

Definition cli_log {R} (msg : string) : M R unit := emit (ELog msg).

(** What reading a property of [undefined] throws; the text of the
    message depends on the engine. *)
Definition TypeError (msg : string) : JsError :=
  {| err_type := None; err_message := msg |}.

(** ** Class [Main] *)

Module Main.
Section Methods.

Context {R : Type}.
(** The collaborators, and the constructor argument [abapLint]. *)
Variable env : Env R.
Variable abapLint : option string.

Local Open Scope js_scope.

Definition key_of (incl : AbapInclude) : string :=
  incl_type incl ++ " " ++ incl_name incl.

(** [tryLock]: [None] is the [undefined] of the bare [return]. *)
Definition tryLock (url : string) : M R (option AdtLock) :=
  try_catch
    (l <- call (ELock url) (client_lock env url) ;; ret (Some l))
    (fun error =>
       if Js.strict_eq (err_type error) (Some "ExceptionResourceNoAccess")
          && negb (Js.match_ci "locked" (err_message error))
       then ret None
       else throw error).

(** [validateTransport] touches nothing: it returns or throws. *)
Definition validateTransport
  (lock : AdtLock) (key : string) (transport : option string) : Res unit :=
  if IS_LOCAL lock && Js.truthy transport then
    inl (CLIError ("Object " ++ key ++ " is local, can't use "
                   ++ Js.show transport))
  else if negb (IS_LOCAL lock) && negb (Js.truthy transport) then
    inl (CLIError ("Object " ++ key ++ " requires a transport "
                   ++ (if Js.truthy (CORRNR lock)
                       then "(locked in " ++ Js.show (CORRNR lock) ++ ")"
                       else EmptyString)))
  else if negb (Js.strict_eq transport (CORRNR lock))
          && negb (IS_LOCAL lock) && Js.truthy (CORRNR lock) then
    inl (CLIError ("Object " ++ key ++ " locked in transport "
                   ++ Js.show (CORRNR lock) ++ " can't use "
                   ++ Js.show transport))
  else inr tt.

(** [activate] *)
Definition activate (incl : AbapInclude) : M R ActivationResult :=
  if incl_type incl =? "PROG/I" then
    main <- call (EMainPrograms (metaUrl incl))
                 (client_mainPrograms env (metaUrl incl)) ;;
    match main with
    | m :: _ =>
        call (EActivate (incl_name incl) (sourceUrl incl)
                        (Some (adtcore_uri m)))
             (client_activate env (incl_name incl) (sourceUrl incl)
                              (Some (adtcore_uri m)))
    | [] => throw (TypeError
              "Cannot read property 'adtcore:uri' of undefined")
    end
  else
    active <- call (EActivate (incl_name incl) (sourceUrl incl) None)
                   (client_activate env (incl_name incl) (sourceUrl incl)
                                    None) ;;
    if (0 <? length (inactive active))%nat then
      let inactives := inactiveObjectsInResults env active in
      call (EActivateObjects inactives)
           (client_activate_objects env inactives)
    else ret active.

Definition first_shortText (a : ActivationResult) : option string :=
  match messages a with
  | m :: _ => Some (shortText m)
  | [] => None
  end.

(** [write] *)
Definition write
  (incl : AbapInclude) (formatted : string) (lock : AdtLock)
  (options : Options) : M R unit :=
  let key := key_of incl in
  (if negb (Js.truthy (LOCK_HANDLE lock))
   then cli_error ("Failed to lock " ++ key) else ret tt) ;;
  lift (validateTransport lock key (transport options)) ;;
  cli_action_start (TAB ++ key) (Some " Writing...") ;;
  (if negb (test options) then
     call (ESetObjectSource (sourceUrl incl) formatted (LOCK_HANDLE lock)
                            (transport options))
          (client_setObjectSource env (sourceUrl incl) formatted
                                  (LOCK_HANDLE lock) (transport options))
   else ret tt) ;;
  cli_action_start (TAB ++ key) (Some " Unlocking...") ;;
  call (EUnLock (sourceUrl incl) (LOCK_HANDLE lock))
       (client_unLock env (sourceUrl incl) (LOCK_HANDLE lock)) ;;
  cli_action_start (TAB ++ key) (Some " Activating...") ;;
  (if negb (test options) then
     active <- activate incl ;;
     if negb (success active) then
       cli_error (Js.or_else (first_shortText active)
                             ("Failed to activate " ++ key))
     else ret tt
   else ret tt) ;;
  cli_action_start (TAB ++ tick env ++ key) None ;;
  modify_status (fun s =>
    {| currentObject := currentObject s;
       currentInclude := currentInclude s;
       processedObjects := processedObjects s;
       processedIncludes := processedIncludes s;
       writtenIncludes := S (writtenIncludes s) |}).

(** The collaborator that [format] delegates to. *)
Definition formatter (incl : AbapInclude) (source : string)
  : R -> Res string * R :=
  if Js.truthy abapLint then abapLintprettyPrint env incl source
  else client_prettyPrinter env source.

(** [format] *)
Definition format (incl : AbapInclude) (source : string) : M R string :=
  if Js.truthy abapLint then
    call (EAbapLintPrettyPrint incl source)
         (abapLintprettyPrint env incl source)
  else
    call (EPrettyPrinter source) (client_prettyPrinter env source).

(** [processInclude] *)
Definition processInclude (incl : AbapInclude) (options : Options)
  : M R unit :=
  modify_status (fun s =>
    {| currentObject := currentObject s;
       currentInclude := Some incl;
       processedObjects := processedObjects s;
       processedIncludes := processedIncludes s;
       writtenIncludes := writtenIncludes s |}) ;;
  let key := key_of incl in
  cli_action_start (TAB ++ key) (Some " Reading...") ;;
  source <- call (EGetObjectSource (sourceUrl incl))
                 (client_getObjectSource env (sourceUrl incl)) ;;
  cli_action_start (TAB ++ key) (Some " Formatting...") ;;
  formatted <- format incl source ;;
  (if formatted =? source then
     cli_action_start (TAB ++ tick env ++ key ++ " (unchanged)") None
   else
     cli_action_start (TAB ++ key) (Some " Locking...") ;;
     lock <- tryLock (sourceUrl incl) ;;
     match lock with
     | Some lock => write incl formatted lock options
     | None =>
         cli_action_start
           (TAB ++ tick env ++ key ++ " is generated, skipped") None
     end) ;;
  cli_action_stop None ;;
  modify_status (fun s =>
    {| currentObject := currentObject s;
       currentInclude := currentInclude s;
       processedObjects := processedObjects s;
       processedIncludes := S (processedIncludes s);
       writtenIncludes := writtenIncludes s |}) ;;
  modify_status (fun s =>
    {| currentObject := currentObject s;
       currentInclude := None;
       processedObjects := processedObjects s;
       processedIncludes := processedIncludes s;
       writtenIncludes := writtenIncludes s |}).

Definition stats_message (s : Status) (objnum : nat) : string :=
  NL ++ Js.show_number (processedObjects s) ++ " of "
     ++ Js.show_number objnum ++ " objects / "
     ++ Js.show_number (processedIncludes s) ++ " includes processed "
     ++ Js.show_number (writtenIncludes s) ++ " written" ++ NL.

(** [stats] *)
Definition stats (objnum : nat) : M R unit :=
  s <- get_status ;;
  cli_log (bold env (stats_message s objnum)).

(** [for (const incl of includes) await this.processInclude(incl, options)] *)
Fixpoint processIncludes (includes : list AbapInclude) (options : Options)
  : M R unit :=
  match includes with
  | [] => ret tt
  | incl :: rest =>
      processInclude incl options ;; processIncludes rest options
  end.

(** The body of [for (const o of objects)]. *)
Definition processObject (o : AbapObject) (options : Options) : M R unit :=
  modify_status (fun s =>
    {| currentObject := Some o;
       currentInclude := currentInclude s;
       processedObjects := processedObjects s;
       processedIncludes := processedIncludes s;
       writtenIncludes := writtenIncludes s |}) ;;
  cli_action_start (obj_type o ++ " " ++ obj_name o) None ;;
  includes <- call (EExpand o) (expand env o) ;;
  cli_action_start (tick env ++ obj_type o ++ " " ++ obj_name o) None ;;
  cli_action_stop None ;;
  processIncludes includes options ;;
  modify_status (fun s =>
    {| currentObject := currentObject s;
       currentInclude := currentInclude s;
       processedObjects := S (processedObjects s);
       processedIncludes := processedIncludes s;
       writtenIncludes := writtenIncludes s |}).

(** The loop [for (const o of objects)] inside the [try]. *)
Fixpoint objectLoop (objects : list AbapObject) (options : Options)
  : M R unit :=
  match objects with
  | [] => ret tt
  | o :: rest => processObject o options ;; objectLoop rest options
  end.

(** The [catch] block of [processObjects]. *)
Definition reportFailure (error : JsError) : M R unit :=
  cli_action_stop (Some "failed!") ;;
  s <- get_status ;;
  cli_log ("Last object "
           ++ Js.show (option_map obj_type (currentObject s)) ++ " "
           ++ Js.show (option_map obj_name (currentObject s))) ;;
  match currentInclude s with
  | Some ci =>
      cli_log ("Last include " ++ incl_type ci ++ " " ++ incl_name ci)
  | None => ret tt
  end ;;
  throw error.

(** The [finally] block of [processObjects]. *)
Definition cleanup (objnum : nat) : M R unit :=
  stats objnum ;;
  set_session stateless ;;
  call EDropSession (client_dropSession env).

(** The first statement of [processObjects], ahead of its [try]. *)
Definition loadConfig : M R unit :=
  if Js.truthy abapLint
     && negb (Js.strict_eq abapLint (Some (ABAPLINT_DEFAULT env)))
  then call (ELoadAbapLintConfig (Js.show abapLint))
            (loadAbapLintConfig env (Js.show abapLint))
  else ret tt.

(** [processObjects] *)
Definition processObjects (objects : list AbapObject) (options : Options)
  : M R unit :=
  loadConfig ;;
  set_session stateful ;;
  try_finally
    (try_catch (objectLoop objects options) reportFailure)
    (cleanup (length objects)).

(** The line filter of manifest mode:
    [(l, i) => l && !isHeader(l, i)]. *)
Definition isHeader (l : string) (i : nat) : bool :=
  (i =? 0)%nat && negb (Js.contains_char SLASH l).

Definition keepLine (l : string) (i : nat) : bool :=
  negb (l =? EmptyString) && negb (isHeader l i).

(** The callback of the second [map] of manifest mode, at index [i]. *)
Definition parseRow (path : string) (i : nat) (row : Js.pieces)
  : Res AbapObject :=
  let (type, rest) := row in
  if negb (supportedType env type) then
    inl (CLIError ("Objects of type " ++ type
                   ++ " are not supportes near line " ++ Js.show_number i
                   ++ " of file " ++ path))
  else
    match rest with
    | name :: url :: _ =>
        if url =? EmptyString then
          inl (CLIError ("URL not specified for object " ++ type ++ " "
                         ++ name ++ " in file " ++ path))
        else inr {| obj_type := type; obj_name := name;
                    obj_url := Some url |}
    | _ =>
        inl (CLIError ("URL not specified for object " ++ type ++ " "
                       ++ Js.show (hd_error rest) ++ " in file " ++ path))
    end.

(** [rows.map((row, i) => ...)], counting from [i]; the first callback
    that throws ends the traversal. *)
Fixpoint parseRows (path : string) (i : nat) (rows : list Js.pieces)
  : Res (Datatypes.list AbapObject) :=
  match rows with
  | [] => inr []
  | row :: rest =>
      match parseRow path i row with
      | inl e => inl e
      | inr o =>
          match parseRows path (S i) rest with
          | inl e => inl e
          | inr os => inr (o :: os)
          end
      end
  end.

(** The manifest pipeline applied to the text of the file. *)
Definition parseManifest (path text : string) : Res (list AbapObject) :=
  parseRows path 0
    (map Js.split_ws3
         (Js.filter_from keepLine 0 (Js.to_list (Js.split_on LF text)))).

(** Progress messages of the discovery query go to [cli.action.start]. *)
Fixpoint reportProgress (msgs : list string) : M R unit :=
  match msgs with
  | [] => ret tt
  | m :: rest => cli_action_start m None ;; reportProgress rest
  end.

Definition nonempty (s : string) : bool := negb (s =? EmptyString).

(** [list] *)
Definition list (type name : string) (options : ListOptions)
  : M R (list AbapObject) :=
  (if (nonempty name || nonempty type) && Js.truthy (file options) then
     cli_error
       "Can't specify an object name or type and a list file at the same time"
   else ret tt) ;;
  if Js.truthy (file options) then
    text <- call (EReadFile (Js.show (file options)))
                 (readFileSync env (Js.show (file options))) ;;
    lift (parseManifest (Js.show (file options)) text)
  else
    (if negb (nonempty name) || negb (nonempty type) then
       cli_error
         "Object type and name required unless a list file is provided"
     else ret tt) ;;
    objects <- (fun w =>
                  let '(msgs, r, rem) :=
                    list_query env type name (recursive options) (remote w)
                  in
                  (reportProgress msgs ;; lift r)
                    {| status := status w; session := session w;
                       remote := rem;
                       trace := observe
                                  (EListQuery type name (recursive options))
                                  w |}) ;;
    cli_action_stop (Some "Done") ;;
    ret objects.

End Methods.
End Main.
(** ** The commands [prettyprint] and [list]

    [run] of the two command classes, on the command line the command
    was started with. *)

(** The flags [run] reads. *)
Record Flags := {
  flag_recursive : bool;
  flag_transport : option string
}.

(** The positional arguments; either may be missing. *)
Record Args := {
  objectType : option string;
  objectName : option string
}.

(** What a command prints itself: a line of [this.log] or the table of
    [cli.table] with the columns type, name and url. *)
Inductive Printed :=
| PLine (text : string)
| PTable (rows : list AbapObject).

(** What the commands use and the sources do not hold: [this.parse] of
    oclif for each of the two classes, which reads the command line and
    returns the arguments and flags or throws; [getClient] of
    [lib/common]; and [error.toString()].  The client that [getClient]
    returns is the one whose methods [Env] holds. *)
Record Shell (R : Type) := {
  parse_Pretty : list string -> Res (Args * Flags);
  parse_List : list string -> Res (Args * Flags);
  getClient : Flags -> R -> Res unit * R;
  error_toString : JsError -> string
}.

Arguments parse_Pretty {R}.
Arguments parse_List {R}.
Arguments getClient {R}.
Arguments error_toString {R}.

Module Commands.
Section Run.

Context {R : Type}.
Variable env : Env R.
Variable shell : Shell R.

Local Open Scope js_scope.

(** [await getClient(flags)]: not a call of [Main], so it leaves no
    observation in the trace. *)
Definition connect (flags : Flags) : M R unit :=
  fun w =>
    let (r, rem) := getClient shell flags (remote w) in
    ({| status := status w; session := session w; remote := rem;
        trace := trace w |}, r).

(** [new Main(client)]: the status starts from its initial value and
    [abapLint] is left undefined. *)
Definition new_Main : M R unit := modify_status (fun _ => initial_status).

(** [await list(client, type, name, message => cli.action.start(message),
    recursive)] of [lib/abap]. *)
Definition discover (type name : string) (recursive : bool)
  : M R (list AbapObject) :=
  fun w =>
    let '(msgs, r, rem) := list_query env type name recursive (remote w) in
    (Main.reportProgress msgs ;; lift r)
      {| status := status w; session := session w; remote := rem;
         trace := observe (EListQuery type name recursive) w |}.

(** [const { objectType = "", objectName = "" } = args] *)
Definition or_empty (a : option string) : string :=
  match a with
  | Some s => s
  | None => EmptyString
  end.

(** The [try] statement of [Pretty.run]; the value is what the command
    printed itself. *)
Definition Pretty_try (args : Args) (flags : Flags) : M R (list Printed) :=
  try_catch
    (let type := or_empty (objectType args) in
     let name := or_empty (objectName args) in
     connect flags ;;
     new_Main ;;
     objects <- discover type name (flag_recursive flags) ;;
     cli_action_stop (Some "Done") ;;
     Main.processObjects env None objects
       {| test := false; transport := flag_transport flags |} ;;
     ret [])
    (fun error => ret [PLine (error_toString shell error)]).

(** [Pretty.run] on the command line [argv]:
    [const { args, flags } = this.parse(Pretty)] comes before the [try],
    so what it throws is thrown by [run]. *)
Definition Pretty_run (argv : list string) : M R (list Printed) :=
  parsed <- lift (parse_Pretty shell argv) ;;
  Pretty_try (fst parsed) (snd parsed).

(** The [try] statement of [List.run]; the value is what the command
    printed itself. *)
Definition List_try (args : Args) (flags : Flags) : M R (list Printed) :=
  try_catch
    (let type := or_empty (objectType args) in
     let name := or_empty (objectName args) in
     connect flags ;;
     objects <- discover type name (flag_recursive flags) ;;
     cli_action_stop (Some "Done") ;;
     ret [PTable objects])
    (fun error => ret [PLine (error_toString shell error)]).

(** [List.run] on the command line [argv]:
    [const { args, flags } = this.parse(List)] comes before the [try]. *)
Definition List_run (argv : list string) : M R (list Printed) :=
  parsed <- lift (parse_List shell argv) ;;
  List_try (fst parsed) (snd parsed).

End Run.
End Commands.

(** ** Vocabulary of the specification *)

(** Kinds of calls. *)
Definition is_lock (e : Event) : bool :=
  match e with ELock _ => true | _ => false end.

Definition is_unlock (e : Event) : bool :=
  match e with EUnLock _ _ => true | _ => false end.

Definition is_setObjectSource (e : Event) : bool :=
  match e with ESetObjectSource _ _ _ _ => true | _ => false end.

(** The calls of [activate]: the main-program lookup and both forms of
    [client.activate]. *)
Definition is_activation (e : Event) : bool :=
  match e with
  | EMainPrograms _ | EActivate _ _ _ | EActivateObjects _ => true
  | _ => false
  end.

(** Calls that lock, write, unlock or activate. *)
Definition is_mutating (e : Event) : bool :=
  is_lock e || is_setObjectSource e || is_unlock e || is_activation e.

(** Console output and the session-mode assignment are local to the
    process; every other event is a call to a collaborator. *)
Definition is_local (e : Event) : bool :=
  match e with
  | EActionStart _ _ | EActionStop _ | ELog _ | ESetSession _ => true
  | _ => false
  end.

Definition collaborator_calls (es : list Event) : list Event :=
  filter (fun e => negb (is_local e)) es.

Definition count (p : Event -> bool) (es : list Event) : nat :=
  length (filter p es).

(** The refusal that [tryLock] turns into a skip, in the words of the
    specification: category "no access to resource", and a message that
    does not say the resource is locked. *)
Definition not_lockable (e : JsError) : bool :=
  match err_type e with
  | Some t => (t =? "ExceptionResourceNoAccess")
              && negb (Js.match_ci "locked" (err_message e))
  | None => false
  end.

(** The three fatal cases of transport validation, in the words of the
    specification.  A tracking id is supplied, or carried by the lock, when
    it is a non-empty string. *)
Definition supplied (t : option string) : bool := Js.truthy t.

Definition local_with_id (lock : AdtLock) (t : option string) : bool :=
  IS_LOCAL lock && supplied t.

Definition remote_without_id (lock : AdtLock) (t : option string) : bool :=
  negb (IS_LOCAL lock) && negb (supplied t).

Definition remote_id_mismatch (lock : AdtLock) (t : option string) : bool :=
  negb (IS_LOCAL lock) && supplied (CORRNR lock) && supplied t
  && negb (Js.strict_eq t (CORRNR lock)).

(** The remote write of [write]: none in a dry run. *)
Definition write_attempt (incl : AbapInclude) (formatted : string)
  (lock : AdtLock) (options : Options) : list Event :=
  if test options then []
  else [ESetObjectSource (sourceUrl incl) formatted (LOCK_HANDLE lock)
                         (transport options)].

(** The call [format] makes for an include and its source. *)
Definition format_event (abapLint : option string) (incl : AbapInclude)
  (source : string) : Event :=
  if Js.truthy abapLint then EAbapLintPrettyPrint incl source
  else EPrettyPrinter source.

(** The content has stabilised on the remote states that satisfy [inv]:
    on such a state, whatever source is read for an include is given back
    unchanged by the formatter, and reading, formatting, expanding an
    object and loading the configuration lead to such a state again. *)
Definition stable_under {R} (env : Env R) (abapLint : option string)
  (inv : R -> Prop) : Prop :=
  (forall incl r source r1,
      inv r ->
      client_getObjectSource env (sourceUrl incl) r = (inr source, r1) ->
      exists r2,
        Main.formatter env abapLint incl source r1 = (inr source, r2)
        /\ inv r2)
  /\ (forall o r includes r1,
        inv r -> expand env o r = (inr includes, r1) -> inv r1)
  /\ (forall path r r1,
        inv r -> loadAbapLintConfig env path r = (inr tt, r1) -> inv r1).

(** *** The status invariant *)

(** An include is seen when its pipeline starts, that is, when its source
    is read. *)
Definition is_read (e : Event) : bool :=
  match e with EGetObjectSource _ => true | _ => false end.

Definition started (tr : list Obs) : nat := count is_read (map ev tr).

Definition is_expand (e : Event) : bool :=
  match e with EExpand _ => true | _ => false end.

(** [cli.action.stop()] without a message: the one call [processInclude]
    makes between the two counter increments. *)
Definition is_plain_stop (e : Event) : bool :=
  match e with EActionStop None => true | _ => false end.

(** The calls of the pipeline of include [i] (read through activate). *)
Definition pipeline_call (e : Event) (i : AbapInclude) : bool :=
  match e with
  | EGetObjectSource url | ELock url | EUnLock url _
  | ESetObjectSource url _ _ _ => url =? sourceUrl i
  | EMainPrograms url => url =? metaUrl i
  | EActivate name url _ => (name =? incl_name i) && (url =? sourceUrl i)
  | EAbapLintPrettyPrint i' _ => sourceUrl i' =? sourceUrl i
  | EPrettyPrinter _ | EActivateObjects _ => true
  | _ => false
  end.

Definition in_pipeline (e : Event) : bool :=
  match e with
  | EGetObjectSource _ | ELock _ | EUnLock _ _ | ESetObjectSource _ _ _ _
  | EMainPrograms _ | EActivate _ _ _ | EPrettyPrinter _
  | EAbapLintPrettyPrint _ _ | EActivateObjects _ => true
  | _ => false
  end.

Definition counters_ok (seen : nat) (s : Status) : bool :=
  (writtenIncludes s <=? processedIncludes s)%nat
  && (processedIncludes s <=? seen)%nat.

(** What holds of the status at a call, [seen] includes having been seen:
    the counters are ordered (except at the plain [cli.action.stop()]); a
    pipeline call belongs to the include recorded in [currentInclude]; and
    [currentInclude] is unset when the next object is expanded. *)
Definition checkpoint_ok (seen : nat) (o : Obs) : bool :=
  let s := at_status o in
  (is_plain_stop (ev o) || counters_ok seen s)
  && (if in_pipeline (ev o)
      then match currentInclude s with
           | Some i => pipeline_call (ev o) i
           | None => false
           end
      else true)
  && (if is_expand (ev o)
      then match currentInclude s with Some _ => false | None => true end
      else true).

(** [checkpoint_ok] at every observation of a trace, oldest first, [seen]
    includes having been seen before it. *)
Fixpoint run_ok (seen : nat) (tr : list Obs) : bool :=
  match tr with
  | [] => true
  | o :: rest =>
      let seen' := if is_read (ev o) then S seen else seen in
      checkpoint_ok seen' o && run_ok seen' rest
  end.

(** The world in which a fresh [Main] starts. *)
Definition fresh {R} (mode : session_types) (r : R) : World R :=
  {| status := initial_status; session := mode; remote := r; trace := [] |}.

(** The invariant between two calls. *)
Definition good {R} (w : World R) : Prop :=
  run_ok 0 (trace w) = true
  /\ writtenIncludes (status w) <= processedIncludes (status w)
  /\ processedIncludes (status w) <= started (trace w).

Definition idle {R} (w : World R) : Prop :=
  good w /\ currentInclude (status w) = None.

Definition idle_after {R} (out : World R * Res unit) : Prop :=
  good (fst out)
  /\ match snd out with
     | inr _ => currentInclude (status (fst out)) = None
     | inl _ => True
     end.

(** What one run of [processInclude] does to the status. *)
Definition include_effect {R} (incl : AbapInclude) (w : World R)
  (out : World R * Res unit) : Prop :=
  let s := status w in
  let s' := status (fst out) in
  match snd out with
  | inr _ =>
      currentInclude s' = None
      /\ processedIncludes s' = S (processedIncludes s)
      /\ writtenIncludes s <= writtenIncludes s' <= S (writtenIncludes s)
  | inl _ =>
      currentInclude s' = Some incl
      /\ processedIncludes s' = processedIncludes s
      /\ writtenIncludes s' = writtenIncludes s
  end.


(** What the [catch] block of [processObjects] prints for a status. *)
Definition failure_report (s : Status) : list Event :=
  [EActionStop (Some "failed!");
   ELog ("Last object " ++ Js.show (option_map obj_type (currentObject s))
         ++ " " ++ Js.show (option_map obj_name (currentObject s)))]
  ++ match currentInclude s with
     | Some ci =>
         [ELog ("Last include " ++ incl_type ci ++ " " ++ incl_name ci)]
     | None => []
     end.

(** Between [w] and [w'] nothing was locked, written, unlocked or
    activated, and nothing was counted as written. *)
Definition quiet {R} (w w' : World R) : Prop :=
  filter is_mutating (calls w') = filter is_mutating (calls w)
  /\ writtenIncludes (status w') = writtenIncludes (status w).

(** A quiet run that, when it returns, leaves the remote in a state that
    satisfies [inv]. *)
Definition quiet_run {R} (inv : R -> Prop) (w : World R)
  (out : World R * Res unit) : Prop :=
  quiet w (fst out)
  /\ match snd out with
     | inr _ => inv (remote (fst out))
     | inl _ => True
     end.

(** *** Manifest mode, in the words of the specification *)

(** The lines that are parsed as rows: the first line is dropped when it
    holds no path separator, and so is every empty line. *)
Definition data_lines (lines : list string) : list string :=
  match lines with
  | [] => []
  | first :: rest =>
      (if Js.contains_char SLASH first then [first] else [])
      ++ filter Main.nonempty rest
  end.

(** A row is valid when its type is supported and its url is present. *)
Definition row_valid {R} (env : Env R) (row : Js.pieces) : bool :=
  supportedType env (fst row)
  && match snd row with
     | _ :: url :: _ => Main.nonempty url
     | _ => false
     end.

(** The descriptor of a row with three fields. *)
Definition row_object (row : Js.pieces) : AbapObject :=
  {| obj_type := fst row;
     obj_name := nth 0 (snd row) EmptyString;
     obj_url := nth_error (snd row) 1 |}.

Definition first_invalid {R} (env : Env R) (rows : list Js.pieces)
  : option Js.pieces :=
  find (fun row => negb (row_valid env row)) rows.

Definition url_missing_message (path : string) (row : Js.pieces) : string :=
  "URL not specified for object " ++ fst row ++ " "
  ++ Js.show (hd_error (snd row)) ++ " in file " ++ path.

Definition unsupported_message (path : string) (row : Js.pieces) (i : nat)
  : string :=
  "Objects of type " ++ fst row ++ " are not supportes near line "
  ++ Js.show_number i ++ " of file " ++ path.

(** The text of a file made of the given lines: [lines.join(NL)]. *)
Definition join_lines (lines : list string) : string :=
  String.concat NL lines.

Fixpoint no_space (s : string) : bool :=
  match s with
  | EmptyString => true
  | String c r => negb (Js.is_space c) && no_space r
  end.

(** A field of a row: a non-empty word. *)
Definition is_field (s : string) : bool := Main.nonempty s && no_space s.

(** The text of a row with three fields. *)
Definition row_text (type name url : string) : string :=
  type ++ " " ++ name ++ " " ++ url.

Definition no_newline (s : string) : bool :=
  negb (Js.contains_char LF s).

(** *** Further vocabulary *)

(** The outcome of [activate] on a remote state: its result and the state
    it leaves, read off a run from an empty trace. *)
Definition activation_outcome {R} (env : Env R) (incl : AbapInclude) (r : R)
  : Res ActivationResult * R :=
  let out := Main.activate env incl (fresh stateless r) in
  (snd out, remote (fst out)).

(** [status] with [writtenIncludes] incremented. *)
Definition counted_written (s : Status) : Status :=
  {| currentObject := currentObject s;
     currentInclude := currentInclude s;
     processedObjects := processedObjects s;
     processedIncludes := processedIncludes s;
     writtenIncludes := S (writtenIncludes s) |}.

(** Session calls: the mode switch and the teardown. *)
Definition is_session (e : Event) : bool :=
  match e with ESetSession _ | EDropSession => true | _ => false end.

Definition is_config (e : Event) : bool :=
  match e with ELoadAbapLintConfig _ => true | _ => false end.

Definition is_prettyPrinter (e : Event) : bool :=
  match e with EPrettyPrinter _ => true | _ => false end.

Definition is_abapLintprettyPrint (e : Event) : bool :=
  match e with EAbapLintPrettyPrint _ _ => true | _ => false end.

(** The progress messages of the discovery query, as calls. *)
Definition progress_calls (msgs : list string) : list Event :=
  map (fun m => EActionStart m None) msgs.

Definition is_progress (e : Event) : bool :=
  match e with EActionStart _ _ | EActionStop _ => true | _ => false end.

(** What the calls of one run of [write] look like, [dry] telling whether
    the run is a dry run: no read, lock, formatter, expander, configuration
    or session call; at most one write and one unlock; activation only
    after the unlock; in a dry run no write and no activation, in a real
    run no unlock without a write. *)
Definition write_tally (dry : bool) (new : list Event) : Prop :=
  count is_read new = 0
  /\ count is_lock new = 0
  /\ count is_prettyPrinter new = 0
  /\ count is_abapLintprettyPrint new = 0
  /\ count is_expand new = 0
  /\ count is_session new = 0
  /\ count is_config new = 0
  /\ count is_unlock new <= 1
  /\ count is_setObjectSource new <= 1
  /\ count is_activation new <= 2 * count is_unlock new
  /\ (if dry
      then count is_setObjectSource new = 0 /\ count is_activation new = 0
      else count is_unlock new <= count is_setObjectSource new).

(** The same accounting for the calls of any stretch of a run. *)
Definition tally (lint dry : bool) (new : list Event) : Prop :=
  count is_unlock new <= count is_lock new
  /\ count is_setObjectSource new <= count is_lock new
  /\ count is_lock new <= count is_read new
  /\ count is_activation new <= 2 * count is_unlock new
  /\ (if dry
      then count is_setObjectSource new = 0 /\ count is_activation new = 0
      else count is_unlock new <= count is_setObjectSource new)
  /\ count is_prettyPrinter new + count is_abapLintprettyPrint new
     <= count is_read new
  /\ (if lint then count is_prettyPrinter new = 0
      else count is_abapLintprettyPrint new = 0)
  /\ count is_session new = 0
  /\ count is_config new = 0.

(** The accounting for the calls of one run of [processInclude]: one
    read, at most one lock call, no call of the expander. *)
Definition include_tally (lint dry : bool) (new : list Event) : Prop :=
  tally lint dry new
  /\ count is_read new = 1
  /\ count is_lock new <= 1
  /\ count is_expand new = 0.

(** How the counters of the status follow the calls [new] of a stretch of
    a run that ended with [failed]: every completed pipeline was read once
    and counted as processed, every counted write was unlocked once; the
    pipeline that failed, if any, was read and may have been unlocked
    without being counted. *)
Definition ledger (s s' : Status) (failed : bool) (new : list Event) : Prop :=
  exists unread uncounted,
    count is_read new + processedIncludes s
    = processedIncludes s' + unread
    /\ count is_unlock new + writtenIncludes s
       = writtenIncludes s' + uncounted
    /\ uncounted <= unread
    /\ unread <= (if failed then 1 else 0).

(** What a stretch of a run leaves alone. *)
Definition same_object (s s' : Status) : Prop :=
  currentObject s' = currentObject s
  /\ processedObjects s' = processedObjects s.

(** How far the object loop got on [objects], from status [s] to [s']:
    [k] objects were completed and counted, the expander was called on
    them in order and, when the loop [failed], once more on the next
    object, which is the one recorded in [currentObject]. *)
Definition loop_progress (objects : list AbapObject) (s s' : Status)
  (failed : bool) (new : list Event) : Prop :=
  exists k,
    processedObjects s' = processedObjects s + k
    /\ filter is_expand new
       = map EExpand (firstn (if failed then S k else k) objects)
    /\ if failed
       then k < length objects /\ currentObject s' = nth_error objects k
       else k = length objects.

(** The condition under which [processObjects] loads a configuration. *)
Definition needs_config {R} (env : Env R) (abapLint : option string) : bool :=
  Js.truthy abapLint
  && negb (Js.strict_eq abapLint (Some (ABAPLINT_DEFAULT env))).

(** The calls of a run around those of its object loop: the optional
    configuration load and the switch to a stateful session before, the
    failure report (when [failed]), the summary [line], the switch back
    and the teardown after. *)
Definition run_prologue {R} (env : Env R) (abapLint : option string)
  : list Event :=
  (if needs_config env abapLint
   then [ELoadAbapLintConfig (Js.show abapLint)] else [])
  ++ [ESetSession stateful].

Definition is_console (e : Event) : bool :=
  match e with
  | EActionStart _ _ | EActionStop _ | ELog _ => true
  | _ => false
  end.

(** The lock discipline, in numbers of calls: nothing is unlocked or
    written that was not locked, nothing is locked that was not read,
    activation follows an unlock (at most two calls each); a dry run
    ([dry]) writes and activates nothing, a real run unlocks only what it
    wrote. *)
Definition lock_accounting (dry : bool) (new : list Event) : Prop :=
  count is_unlock new <= count is_lock new
  /\ count is_setObjectSource new <= count is_lock new
  /\ count is_lock new <= count is_read new
  /\ count is_activation new <= 2 * count is_unlock new
  /\ (if dry
      then count is_setObjectSource new = 0 /\ count is_activation new = 0
      else count is_unlock new <= count is_setObjectSource new).

(** The choice of formatter: at most one formatter call per read, all to
    abaplint when [lint], all to the server's pretty printer otherwise. *)
Definition formatter_choice (lint : bool) (new : list Event) : Prop :=
  count is_prettyPrinter new + count is_abapLintprettyPrint new
  <= count is_read new
  /\ (if lint then count is_prettyPrinter new = 0
      else count is_abapLintprettyPrint new = 0).

(** A line made of white space only. *)
Fixpoint blank (s : string) : bool :=
  match s with
  | EmptyString => true
  | String c r => Js.is_space c && blank r
  end.

(** The calls of the discovery step of a command: the query and console
    output. *)
Definition is_discovery (e : Event) : bool :=
  match e with
  | EListQuery _ _ _ | EActionStart _ _ | EActionStop _ => true
  | _ => false
  end.

(** The line of a manifest for an object: its type, name and url,
    separated by one space. *)
Definition descriptor_line (o : AbapObject) : string :=
  row_text (obj_type o) (obj_name o) (Js.show (obj_url o)).

(** An object that a manifest can hold: a supported type, and a type, a
    name and a url that are non-empty words. *)
Definition listable {R} (env : Env R) (o : AbapObject) : bool :=
  supportedType env (obj_type o)
  && is_field (obj_type o) && is_field (obj_name o)
  && match obj_url o with
     | Some url => is_field url
     | None => false
     end.

(** ** Scripted collaborators

    Concrete collaborators over a remote without state, used to run the
    methods on explicit inputs.  Each answer is fixed in advance. *)

Definition objects_of (a : ActivationResult) : list InactiveObject :=
  flat_map (fun r => match io_object r with Some o => [o] | None => [] end)
           (inactive a).

Definition scripted
  (lock : Res AdtLock) (setSource unlock : Res unit)
  (source : string -> Res string) (fmt : string -> Res string)
  (activated reactivated : Res ActivationResult)
  (drop config : Res unit)
  (includes : Res (list AbapInclude)) (manifest : Res string) : Env unit :=
  {| client_lock := fun _ r => (lock, r);
     client_unLock := fun _ _ r => (unlock, r);
     client_setObjectSource := fun _ _ _ _ r => (setSource, r);
     client_getObjectSource := fun url r => (source url, r);
     client_prettyPrinter := fun s r => (fmt s, r);
     client_mainPrograms :=
       fun _ r => (inr [{| adtcore_uri := "/sap/bc/adt/programs/zmain" |}], r);
     client_activate := fun _ _ _ r => (activated, r);
     client_activate_objects := fun _ r => (reactivated, r);
     client_dropSession := fun r => (drop, r);
     inactiveObjectsInResults := objects_of;
     expand := fun _ r => (includes, r);
     list_query := fun _ _ _ r => ([], inr [], r);
     supportedType := fun t => (t =? "PROG/P") || (t =? "CLAS/OC");
     loadAbapLintConfig := fun _ r => (config, r);
     abapLintprettyPrint := fun _ s r => (fmt s, r);
     ABAPLINT_DEFAULT := "default";
     readFileSync := fun _ r => (manifest, r);
     tick := "+";
     bold := fun s => s |}.

Definition ok : Res unit := inr tt.

Definition failure (type : option string) (msg : string) : JsError :=
  {| err_type := type; err_message := msg |}.

Definition localLock : AdtLock :=
  {| LOCK_HANDLE := Some "HANDLE"; CORRNR := None; IS_LOCAL := true |}.

Definition transportLock : AdtLock :=
  {| LOCK_HANDLE := Some "HANDLE"; CORRNR := Some "K900001";
     IS_LOCAL := false |}.

Definition activeResult : ActivationResult :=
  {| success := true; messages := []; inactive := [] |}.

Definition zfoo : AbapInclude :=
  {| incl_type := "PROG/P"; incl_name := "ZFOO";
     sourceUrl := "/sap/bc/adt/programs/programs/zfoo/source/main";
     metaUrl := "/sap/bc/adt/programs/programs/zfoo" |}.

Definition zbar : AbapInclude :=
  {| incl_type := "PROG/P"; incl_name := "ZBAR";
     sourceUrl := "/sap/bc/adt/programs/programs/zbar/source/main";
     metaUrl := "/sap/bc/adt/programs/programs/zbar" |}.

Definition zpkg : AbapObject :=
  {| obj_type := "DEVC/K"; obj_name := "ZPKG"; obj_url := None |}.

Definition dep1 : InactiveObject :=
  {| io_uri := "/sap/bc/adt/oo/classes/zcl_a"; io_type := "CLAS/OC";
     io_name := "ZCL_A" |}.

Definition dep2 : InactiveObject :=
  {| io_uri := "/sap/bc/adt/oo/classes/zcl_b"; io_type := "CLAS/OC";
     io_name := "ZCL_B" |}.

(** An activation answer that leaves two objects inactive. *)
Definition twoInactive : ActivationResult :=
  {| success := false; messages := [];
     inactive := [ {| io_object := Some dep1; io_transport := None |};
                   {| io_object := Some dep2; io_transport := None |} ] |}.

Definition dryRun : Options := {| test := true; transport := None |}.
Definition realRun : Options := {| test := false; transport := None |}.

(** An answer that does not depend on the question. *)
Definition always {A} (a : A) : string -> Res A := fun _ => inr a.

Definition never {A} (e : JsError) : string -> Res A := fun _ => inl e.

(** *** The inputs of the examples *)

Definition source : string := "report zfoo. write 1.".
Definition formatted : string := "REPORT zfoo. WRITE 1.".

(** A remote on which everything succeeds: the source is read, formatted
    differently, locked locally, written, unlocked and activated. *)
Definition allGood : Env unit :=
  scripted (inr localLock) ok ok (always source) (always formatted)
           (inr activeResult) (inr activeResult) ok ok
           (inr [zfoo]) (inr EmptyString).

(** The formatter gives back what it reads. *)
Definition unchanged : Env unit :=
  scripted (inr localLock) ok ok (always source) (always source)
           (inr activeResult) (inr activeResult) ok ok
           (inr [zfoo; zbar]) (inr EmptyString).

Definition writeError : JsError :=
  failure (Some "ExceptionResourceLockedByAnotherUser")
          "Lock handle is no longer valid".

(** The remote write fails. *)
Definition writeFails : Env unit :=
  scripted (inr localLock) (inl writeError) ok (always source)
           (always formatted) (inr activeResult) (inr activeResult) ok ok
           (inr [zfoo]) (inr EmptyString).

Definition notEditable : JsError :=
  failure (Some "ExceptionResourceNoAccess")
          "Include ZFOO is generated and cannot be edited".

Definition lockedByOther : JsError :=
  failure (Some "ExceptionResourceNoAccess")
          "Object is currently LOCKED by user DEVELOPER".

(** The lock is refused because the include cannot be locked at all. *)
Definition generated : Env unit :=
  scripted (inl notEditable) ok ok (always source) (always formatted)
           (inr activeResult) (inr activeResult) ok ok
           (inr [zfoo]) (inr EmptyString).

(** The lock is refused because somebody else holds it. *)
Definition contended : Env unit :=
  scripted (inl lockedByOther) ok ok (always source) (always formatted)
           (inr activeResult) (inr activeResult) ok ok
           (inr [zfoo]) (inr EmptyString).

(** The first activation leaves two objects inactive. *)
Definition needsRetry : Env unit :=
  scripted (inr localLock) ok ok (always source) (always formatted)
           (inr twoInactive) (inr activeResult) ok ok
           (inr [zfoo]) (inr EmptyString).

Definition configError : JsError :=
  failure None "ENOENT: no such file or directory, open 'abaplint.json'".

(** The abaplint configuration cannot be loaded. *)
Definition configFails : Env unit :=
  scripted (inr localLock) ok ok (always source) (always formatted)
           (inr activeResult) (inr activeResult) ok (inl configError)
           (inr [zfoo]) (inr EmptyString).

Definition readError : JsError :=
  failure (Some "ExceptionResourceNotFound") "Resource does not exist".

Definition dropError : JsError :=
  failure None "Session timed out".

(** Reading the source fails, and so does dropping the session. *)
Definition readAndDropFail : Env unit :=
  scripted (inr localLock) ok ok (never readError) (always formatted)
           (inr activeResult) (inr activeResult) (inl dropError) ok
           (inr [zfoo]) (inr EmptyString).

(** Reading the source fails. *)
Definition readFails : Env unit :=
  scripted (inr localLock) ok ok (never readError) (always formatted)
           (inr activeResult) (inr activeResult) ok ok
           (inr [zfoo]) (inr EmptyString).

Definition manifestOf (text : string) : Env unit :=
  scripted (inr localLock) ok ok (always source) (always formatted)
           (inr activeResult) (inr activeResult) ok ok
           (inr [zfoo]) (inr text).

Definition fromFile (path : string) : ListOptions :=
  {| file := Some path; recursive := false |}.

(** A header and two valid rows. *)
Definition threeLines : string :=
  join_lines ["TYPE NAME URL";
              "PROG/P ZFOO /sap/bc/adt/programs/programs/zfoo";
              "CLAS/OC ZCL_BAR /sap/bc/adt/oo/classes/zcl_bar"].

(** No header: the first line is a row. *)
Definition noHeader : string :=
  join_lines ["PROG/P ZFOO /sap/bc/adt/programs/programs/zfoo";
              "CLAS/OC ZCL_BAR /sap/bc/adt/oo/classes/zcl_bar"].

(** A header, an empty line, and on the third line a row without url. *)
Definition urlMissing : string :=
  join_lines ["TYPE NAME URL"; EmptyString; "PROG/P ZFOO"].

(** A header, an empty line, and on the third line a row of a type that
    is not supported. *)
Definition badType : string :=
  join_lines ["TYPE NAME URL"; EmptyString;
              "TABL/DT ZTAB /sap/bc/adt/ddic/tables/ztab"].

(** The formatter of the end-to-end scenario: it rewrites [source] and
    leaves every other text alone. *)
Definition pretty (s : string) : string :=
  if s =? source then formatted else s.

(** Include A holds [source], include B holds text that is formatted
    already. *)
Definition endToEnd : Env unit :=
  scripted (inr localLock) ok ok
           (fun url => inr (if url =? sourceUrl zfoo then source
                            else "REPORT zbar."))
           (fun s => inr (pretty s))
           (inr activeResult) (inr activeResult) ok ok
           (inr [zfoo; zbar]) (inr EmptyString).

(** A remote that stores the source of urls, one entry per url; a url
    without entry holds formatted text. *)
Definition Store : Type := list (string * string).

Fixpoint lookup (url : string) (r : Store) : string :=
  match r with
  | [] => formatted
  | (u, text) :: rest => if u =? url then text else lookup url rest
  end.

Definition stored : Env Store :=
  {| client_lock := fun _ r => (inr localLock, r);
     client_unLock := fun _ _ r => (ok, r);
     client_setObjectSource :=
       fun url text _ _ r =>
         (ok, (url, text) :: filter (fun entry => negb (fst entry =? url)) r);
     client_getObjectSource := fun url r => (inr (lookup url r), r);
     client_prettyPrinter := fun s r => (inr (pretty s), r);
     client_mainPrograms := fun _ r => (inr [], r);
     client_activate := fun _ _ _ r => (inr activeResult, r);
     client_activate_objects := fun _ r => (inr activeResult, r);
     client_dropSession := fun r => (ok, r);
     inactiveObjectsInResults := objects_of;
     expand := fun _ r => (inr [zfoo; zbar], r);
     list_query := fun _ _ _ r => ([], inr [], r);
     supportedType := fun t => (t =? "PROG/P") || (t =? "CLAS/OC");
     loadAbapLintConfig := fun _ r => (ok, r);
     abapLintprettyPrint := fun _ s r => (inr (pretty s), r);
     ABAPLINT_DEFAULT := "default";
     readFileSync := fun _ r => (inr EmptyString, r);
     tick := "+";
     bold := fun s => s |}.

(** The two includes hold unformatted source. *)
Definition unformatted : Store :=
  [(sourceUrl zfoo, source); (sourceUrl zbar, source)].

(** Every stored text is left alone by the formatter. *)
Definition all_formatted (r : Store) : Prop :=
  forallb (fun entry => pretty (snd entry) =? snd entry) r = true.

(** *** Further inputs *)

(** An include of a program, as opposed to the program itself. *)
Definition zinc : AbapInclude :=
  {| incl_type := "PROG/I"; incl_name := "ZINC";
     sourceUrl := "/sap/bc/adt/programs/includes/zinc/source/main";
     metaUrl := "/sap/bc/adt/programs/includes/zinc" |}.

Definition syntaxError : ActivationResult :=
  {| success := false;
     messages := [ {| shortText := "Syntax error in ZFOO" |} ];
     inactive := [] |}.

(** Activation answers with a failure and a message. *)
Definition activationFails : Env unit :=
  scripted (inr localLock) ok ok (always source) (always formatted)
           (inr syntaxError) (inr activeResult) ok ok
           (inr [zfoo]) (inr EmptyString).

Definition zprog : AbapObject :=
  {| obj_type := "PROG/P"; obj_name := "ZFOO";
     obj_url := Some "/sap/bc/adt/programs/programs/zfoo" |}.

Definition zclass : AbapObject :=
  {| obj_type := "CLAS/OC"; obj_name := "ZCL_BAR";
     obj_url := Some "/sap/bc/adt/oo/classes/zcl_bar" |}.

(** [base] with a discovery query that reports [msgs] and answers [found]. *)
Definition discovering (base : Env unit) (msgs : list string)
  (found : Res (list AbapObject)) : Env unit :=
  {| client_lock := client_lock base;
     client_unLock := client_unLock base;
     client_setObjectSource := client_setObjectSource base;
     client_getObjectSource := client_getObjectSource base;
     client_prettyPrinter := client_prettyPrinter base;
     client_mainPrograms := client_mainPrograms base;
     client_activate := client_activate base;
     client_activate_objects := client_activate_objects base;
     client_dropSession := client_dropSession base;
     inactiveObjectsInResults := inactiveObjectsInResults base;
     expand := expand base;
     list_query := fun _ _ _ r => (msgs, found, r);
     supportedType := supportedType base;
     loadAbapLintConfig := loadAbapLintConfig base;
     abapLintprettyPrint := abapLintprettyPrint base;
     ABAPLINT_DEFAULT := ABAPLINT_DEFAULT base;
     readFileSync := readFileSync base;
     tick := tick base;
     bold := bold base |}.

Definition packageQuery : Env unit :=
  discovering allGood ["Listing ZPKG"; "Listing ZSUB"] (inr [zprog; zclass]).

(** A carriage return, as a line of its own. *)
Definition CR : ascii := ascii_of_nat 13.
Definition crLine : string := String CR EmptyString.

(** ** Properties *)

Section Properties.

Context {R : Type}.
Variable env : Env R.
Variable abapLint : option string.

(** *** Transport validation *)

(** C3: [validateTransport] raises exactly in the three cases of the
    specification (the lock is local and a tracking id is supplied; the
    lock is not local and none is supplied; the lock is not local, carries
    a tracking id, and the supplied one differs), no two of which hold
    together; over the grid of lock kinds and supplied/omitted ids every
    other combination returns. *)
Theorem validateTransport_matrix (lock : AdtLock) (key : string)
  (t : option string) :
  is_error (Main.validateTransport lock key t)
  = local_with_id lock t || remote_without_id lock t
    || remote_id_mismatch lock t
  /\ local_with_id lock t && remote_without_id lock t = false
  /\ local_with_id lock t && remote_id_mismatch lock t = false
  /\ remote_without_id lock t && remote_id_mismatch lock t = false
  /\ is_error (Main.validateTransport lock key t)
     = (if IS_LOCAL lock then supplied t
        else if supplied (CORRNR lock)
             then negb (supplied t) || negb (Js.strict_eq t (CORRNR lock))
             else negb (supplied t)).
Proof.
  unfold Main.validateTransport, local_with_id, remote_without_id,
    remote_id_mismatch, supplied.
  destruct (IS_LOCAL lock), (Js.truthy t) eqn:Et,
    (Js.truthy (CORRNR lock)) eqn:Ec,
    (Js.strict_eq t (CORRNR lock)) eqn:Eq;
    simpl; repeat split; intros; try reflexivity; try discriminate.
Qed.

(** *** Running the methods *)

Lemma string_app_assoc (a b c : string) :
  ((a ++ b) ++ c)%string = (a ++ (b ++ c))%string.
Proof. induction a; cbn; [reflexivity | now rewrite IHa]. Qed.

Lemma stats_message_written (s : Status) (n : nat) :
  exists before : string,
    Main.stats_message s n
    = (before ++ Js.show_number (writtenIncludes s) ++ " written" ++ NL)%string.
Proof.
  exists (NL ++ Js.show_number (processedObjects s) ++ " of "
          ++ Js.show_number n ++ " objects / "
          ++ Js.show_number (processedIncludes s)
          ++ " includes processed ")%string.
  unfold Main.stats_message.
  repeat (rewrite string_app_assoc). reflexivity.
Qed.

Lemma calls_snoc (w : World R) (e : Event) (st : Status) :
  map ev (trace w ++ [{| ev := e; at_status := st |}]) = calls w ++ [e].
Proof. unfold calls. rewrite map_app. reflexivity. Qed.

Ltac unfold_monad :=
  unfold bind, try_catch, try_finally, cli_error, cli_action_start,
    cli_action_stop, cli_log, emit, call, lift, throw, ret, get_status,
    modify_status, set_session, observe; cbn zeta.

(** One case split on the next answer of a collaborator. *)
Ltac answer :=
  match goal with
  | |- context [client_lock env ?a ?x] =>
      destruct (client_lock env a x) as [[?e | ?l] ?r] eqn:?
  | |- context [client_unLock env ?a ?b ?x] =>
      destruct (client_unLock env a b x) as [[?e | []] ?r] eqn:?
  | |- context [client_setObjectSource env ?a ?b ?c ?d ?x] =>
      destruct (client_setObjectSource env a b c d x)
        as [[?e | []] ?r] eqn:?
  | |- context [client_getObjectSource env ?a ?x] =>
      destruct (client_getObjectSource env a x) as [[?e | ?s] ?r] eqn:?
  | |- context [client_mainPrograms env ?a ?x] =>
      destruct (client_mainPrograms env a x) as [[?e | [| ?m ?ms]] ?r] eqn:?
  | |- context [client_activate env ?a ?b ?c ?x] =>
      destruct (client_activate env a b c x) as [[?e | ?act] ?r] eqn:?
  | |- context [client_activate_objects env ?a ?x] =>
      destruct (client_activate_objects env a x) as [[?e | ?act] ?r] eqn:?
  | |- context [client_dropSession env ?x] =>
      destruct (client_dropSession env x) as [[?e | []] ?r] eqn:?
  | |- context [expand env ?a ?x] =>
      destruct (expand env a x) as [[?e | ?incls] ?r] eqn:?
  end; cbn [fst snd].

Ltac norm_calls :=
  unfold calls, collaborator_calls, count; cbn [trace fst snd];
  repeat rewrite <- app_assoc;
  rewrite ?map_app, ?filter_app, ?length_app; cbn.

Ltac run_activate :=
  unfold Main.activate; unfold_monad;
  destruct (incl_type _ =? "PROG/I"); cbn;
  repeat (answer; cbn);
  repeat match goal with
    | |- context [inactive ?a] => destruct (inactive a); cbn; repeat (answer; cbn)
    end.

(** *** Activation *)

(** C6: an include that is not of type PROG/I is activated directly; when
    the answer lists inactive objects, exactly one more activation call is
    made, on the inactive objects of that answer, and its outcome is the
    outcome of [activate]; when it lists none, the answer is returned and
    no second call is made.  In no case are there more than two
    activation calls. *)
Theorem activate_single_retry (incl : AbapInclude) (w : World R)
  (Hvariant : (incl_type incl =? "PROG/I") = false) :
  let first :=
    client_activate env (incl_name incl) (sourceUrl incl) None (remote w) in
  let direct := EActivate (incl_name incl) (sourceUrl incl) None in
  let out := Main.activate env incl w in
  match fst first with
  | inl e =>
      snd out = inl e /\ calls (fst out) = calls w ++ [direct]
  | inr active =>
      match inactive active with
      | [] =>
          snd out = inr active /\ calls (fst out) = calls w ++ [direct]
      | _ :: _ =>
          let retry := inactiveObjectsInResults env active in
          snd out = fst (client_activate_objects env retry (snd first))
          /\ remote (fst out)
             = snd (client_activate_objects env retry (snd first))
          /\ calls (fst out)
             = calls w ++ [direct; EActivateObjects retry]
      end
  end.
Proof.
  unfold Main.activate. rewrite Hvariant.
  unfold bind, call, ret, observe. cbn zeta.
  destruct (client_activate env (incl_name incl) (sourceUrl incl) None
              (remote w)) as [[e | active] r1] eqn:E1; cbn.
  - split; [reflexivity | apply calls_snoc].
  - destruct (inactive active) as [| i is_]; cbn.
    + split; [reflexivity | apply calls_snoc].
    + destruct (client_activate_objects env
                  (inactiveObjectsInResults env active) r1)
        as [r2 rem2] eqn:E2; cbn.
      repeat split.
      unfold calls; cbn. rewrite !map_app, <- app_assoc. reflexivity.
Qed.

(** *** Writing *)

(** C1, as the code has it: [write] issues exactly one unlock call, for
    the include's source URL and the lock's handle, when the lock has a
    handle, transport validation passes, and the remote write succeeds or
    is skipped by a dry run.  That call follows the write attempt
    directly and precedes every activation call, so a failing unlock or
    a failing activation does not change the count.  When the handle
    check, the validation or the remote write fails, [write] throws
    without any unlock call. *)
Theorem write_unlock_once (incl : AbapInclude) (formatted : string)
  (lock : AdtLock) (options : Options) (w : World R) :
  let out := Main.write env incl formatted lock options w in
  let written :=
    fst (client_setObjectSource env (sourceUrl incl) formatted
           (LOCK_HANDLE lock) (transport options) (remote w)) in
  let unlock := EUnLock (sourceUrl incl) (LOCK_HANDLE lock) in
  if Js.truthy (LOCK_HANDLE lock)
     && negb (is_error (Main.validateTransport lock (Main.key_of incl)
                          (transport options)))
     && (test options || negb (is_error written))
  then
    exists after,
      collaborator_calls (calls (fst out))
      = collaborator_calls (calls w)
        ++ write_attempt incl formatted lock options ++ unlock :: after
      /\ forallb is_activation after = true
      /\ count is_unlock (calls (fst out)) = S (count is_unlock (calls w))
  else
    count is_unlock (calls (fst out)) = count is_unlock (calls w)
    /\ is_error (snd out) = true.
Proof.
  unfold Main.write, Main.key_of; unfold_monad.
  destruct (Js.truthy (LOCK_HANDLE lock)) eqn:Eh; cbn.
  2: { split; reflexivity. }
  destruct (Main.validateTransport lock _ (transport options)) as [e|[]] eqn:Ev; cbn.
  { split; reflexivity. }
  unfold write_attempt.
  destruct (test options) eqn:Et; cbn.
  - answer; cbn; (eexists; norm_calls; split; [reflexivity | split; [reflexivity | lia]]).
  - answer; cbn.
    + norm_calls. split; [lia | reflexivity].
    + answer; cbn.
      * (eexists; norm_calls; split; [reflexivity | split; [reflexivity | lia]]).
      * run_activate.
        all: repeat match goal with |- context [success ?a] => destruct (success a); cbn end.
        all: (eexists; norm_calls; split; [reflexivity | split; [reflexivity | lia]]).
Qed.

(** C7: in a dry run [write] makes no [setObjectSource] call and no
    activation call, while the handle check and the transport validation
    run first and throw exactly what they throw in a real run, and the
    unlock call is still made. *)
Theorem dry_run_skips_remote_write (incl : AbapInclude) (formatted : string)
  (lock : AdtLock) (t : option string) (w : World R) :
  let dry :=
    Main.write env incl formatted lock {| test := true; transport := t |} w
  in
  let real :=
    Main.write env incl formatted lock {| test := false; transport := t |} w
  in
  count is_setObjectSource (calls (fst dry))
  = count is_setObjectSource (calls w)
  /\ count is_activation (calls (fst dry)) = count is_activation (calls w)
  /\ if Js.truthy (LOCK_HANDLE lock) then
       match Main.validateTransport lock (Main.key_of incl) t with
       | inl e => dry = (w, inl e) /\ real = (w, inl e)
       | inr _ =>
           collaborator_calls (calls (fst dry))
           = collaborator_calls (calls w)
             ++ [EUnLock (sourceUrl incl) (LOCK_HANDLE lock)]
       end
     else
       dry = (w, inl (CLIError ("Failed to lock " ++ Main.key_of incl)))
       /\ real = dry.
Proof.
  unfold Main.write, Main.key_of; unfold_monad; cbn [test transport].
  destruct (Js.truthy (LOCK_HANDLE lock)) eqn:Eh; cbn.
  2: { repeat split. }
  destruct (Main.validateTransport lock _ t) as [e | []] eqn:Ev; cbn.
  { repeat split. }
  answer; cbn; norm_calls; repeat split; lia.
Qed.

(** C10: a dry run that gets past the handle check, the validation and
    the unlock call returns normally and has incremented
    [writtenIncludes] by one, after the unlock call (which still saw the
    old counter), without any [setObjectSource] or activation call; the
    summary then prints the incremented counter as written. *)
Theorem dry_run_counts_written (incl : AbapInclude) (formatted : string)
  (lock : AdtLock) (t : option string) (w : World R) (ru : R) (n : nat)
  (Hhandle : Js.truthy (LOCK_HANDLE lock) = true)
  (Hvalid : Main.validateTransport lock (Main.key_of incl) t = inr tt)
  (Hunlock : client_unLock env (sourceUrl incl) (LOCK_HANDLE lock)
               (remote w) = (inr tt, ru)) :
  let out :=
    Main.write env incl formatted lock {| test := true; transport := t |} w
  in
  let unlock := EUnLock (sourceUrl incl) (LOCK_HANDLE lock) in
  snd out = inr tt
  /\ writtenIncludes (status (fst out)) = S (writtenIncludes (status w))
  /\ In {| ev := unlock; at_status := status w |} (trace (fst out))
  /\ collaborator_calls (calls (fst out))
     = collaborator_calls (calls w) ++ [unlock]
  /\ calls (fst (Main.stats env n (fst out)))
     = calls (fst out)
       ++ [ELog (bold env (Main.stats_message (status (fst out)) n))]
  /\ exists before : string,
       Main.stats_message (status (fst out)) n
       = (before ++ Js.show_number (S (writtenIncludes (status w)))
            ++ " written" ++ NL)%string.
Proof.
  unfold Main.write, Main.stats; unfold_monad; cbn [test transport].
  rewrite Hhandle; cbn. rewrite Hvalid; cbn. rewrite Hunlock; cbn.
  repeat split.
  - rewrite !in_app_iff. left; left; right. left. reflexivity.
  - norm_calls. reflexivity.
  - unfold calls; cbn. rewrite !map_app. reflexivity.
  - apply (stats_message_written
             {| currentObject := currentObject (status w);
                currentInclude := currentInclude (status w);
                processedObjects := processedObjects (status w);
                processedIncludes := processedIncludes (status w);
                writtenIncludes := S (writtenIncludes (status w)) |}).
Qed.

(** *** The per-include pipeline *)

Ltac unfold_include :=
  unfold Main.processInclude, Main.format, Main.tryLock, Main.key_of;
  unfold_monad.

(** Runs [processInclude] through a successful read [Hread] and a
    successful formatter call [Hformat]. *)
Ltac read_and_format Hread Hformat :=
  unfold_include; unfold format_event; unfold Main.formatter in Hformat;
  cbn [remote status session trace fst snd];
  rewrite Hread; cbn [remote status session trace fst snd];
  destruct (Js.truthy abapLint);
  cbn [remote status session trace fst snd];
  rewrite Hformat; cbn [remote status session trace fst snd].

(** The outcome of [tryLock] depends on the remote state only. *)
Lemma tryLock_outcome (url : string) (w : World R) :
  snd (Main.tryLock env url w)
  = match fst (client_lock env url (remote w)) with
    | inr l => inr (Some l)
    | inl e => if not_lockable e then inr None else inl e
    end
  /\ calls (fst (Main.tryLock env url w)) = calls w ++ [ELock url]
  /\ status (fst (Main.tryLock env url w)) = status w
  /\ remote (fst (Main.tryLock env url w))
     = snd (client_lock env url (remote w)).
Proof.
  unfold Main.tryLock, not_lockable; unfold_monad.
  destruct (client_lock env url (remote w)) as [[e | l] r1]; cbn.
  - destruct (err_type e) as [t |]; cbn.
    + destruct (t =? "ExceptionResourceNoAccess")%string,
        (Js.match_ci "locked" (err_message e)); cbn;
        repeat split; apply calls_snoc.
    + repeat split; apply calls_snoc.
  - repeat split; apply calls_snoc.
Qed.

(** C2: [tryLock] returns absent exactly when the lock call is refused
    with category "no access to resource" and a message that does not
    match "locked" without regard to case; every other refusal is thrown
    again unchanged, and a granted lock is returned.  For an include whose
    formatted text differs from its source, [processInclude] turns the
    absent lock into a skip: it returns normally, counts the include as
    processed and leaves [writtenIncludes] unchanged; every other refusal
    leaves it as the error of [processInclude]. *)
Theorem lock_refusal_classification (incl : AbapInclude)
  (options : Options) (w : World R) (source formatted : string)
  (r1 r2 : R) (url : string) (w' : World R)
  (Hread : client_getObjectSource env (sourceUrl incl) (remote w)
           = (inr source, r1))
  (Hformat : Main.formatter env abapLint incl source r1
             = (inr formatted, r2))
  (Hchanged : (formatted =? source)%string = false) :
  let out := Main.processInclude env abapLint incl options w in
  snd (Main.tryLock env url w')
  = match fst (client_lock env url (remote w')) with
    | inr l => inr (Some l)
    | inl e => if not_lockable e then inr None else inl e
    end
  /\ match fst (client_lock env (sourceUrl incl) r2) with
     | inr _ => True
     | inl e =>
         if not_lockable e then
           snd out = inr tt
           /\ writtenIncludes (status (fst out)) = writtenIncludes (status w)
           /\ processedIncludes (status (fst out))
              = S (processedIncludes (status w))
           /\ collaborator_calls (calls (fst out))
              = collaborator_calls (calls w)
                ++ [EGetObjectSource (sourceUrl incl);
                    format_event abapLint incl source;
                    ELock (sourceUrl incl)]
         else
           snd out = inl e
           /\ writtenIncludes (status (fst out)) = writtenIncludes (status w)
     end.
Proof.
  intros out. subst out.
  split; [apply tryLock_outcome |].
  read_and_format Hread Hformat; rewrite Hchanged;
    cbn [remote status session trace fst snd]; unfold not_lockable.
  all: destruct (client_lock env (sourceUrl incl) r2) as [[e | l] r3]; cbn;
    [| exact I].
  all: destruct (err_type e) as [t |]; cbn; [| repeat split].
  all: destruct (t =? "ExceptionResourceNoAccess")%string,
    (Js.match_ci "locked" (err_message e)); cbn; repeat split.
  all: norm_calls; reflexivity.
Qed.

(** C4: when the formatted text equals the source that was read,
    [processInclude] returns normally having called only the read and
    the formatter: no lock, write, unlock or activation call is made and
    [writtenIncludes] is unchanged. *)
Theorem processInclude_unchanged (incl : AbapInclude) (options : Options)
  (w : World R) (source : string) (r1 r2 : R)
  (Hread : client_getObjectSource env (sourceUrl incl) (remote w)
           = (inr source, r1))
  (Hformat : Main.formatter env abapLint incl source r1
             = (inr source, r2)) :
  let out := Main.processInclude env abapLint incl options w in
  snd out = inr tt
  /\ collaborator_calls (calls (fst out))
     = collaborator_calls (calls w)
       ++ [EGetObjectSource (sourceUrl incl);
           format_event abapLint incl source]
  /\ filter is_mutating (calls (fst out)) = filter is_mutating (calls w)
  /\ writtenIncludes (status (fst out)) = writtenIncludes (status w)
  /\ processedIncludes (status (fst out))
     = S (processedIncludes (status w))
  /\ currentInclude (status (fst out)) = None.
Proof.
  intros out; subst out.
  read_and_format Hread Hformat; rewrite String.eqb_refl; cbn.
  all: repeat split; norm_calls; rewrite ?app_nil_r; reflexivity.
Qed.

(** *** The orchestrator *)

(** C5, as the code has it: once the configuration load that precedes
    the [try] has succeeded (or was not needed), [processObjects] ends,
    whether the object loop returned or threw, by logging the summary,
    switching the session to stateless and dropping the session, in that
    order.  When the loop threw, it first prints the failure report (the
    current object and, if set, the current include).  The caller then
    gets the outcome of the loop itself, so the error of the loop
    unchanged, unless [dropSession] throws: then the caller gets the
    error of [dropSession].  When the configuration load itself throws,
    [processObjects] throws its error with the load as its only call: no
    summary, no session switch, no [dropSession], and the session mode
    and the status are left as they were. *)
Theorem processObjects_cleanup (objects : list AbapObject)
  (options : Options) (w : World R) :
  let config := Main.loadConfig env abapLint w in
  let out := Main.processObjects env abapLint objects options w in
  match snd config with
  | inl failed =>
      snd out = inl failed
      /\ calls (fst out)
         = calls w ++ [ELoadAbapLintConfig (Js.show abapLint)]
      /\ session (fst out) = session w
      /\ status (fst out) = status w
  | inr _ =>
      let entered := fst (set_session stateful (fst config)) in
      let loop := Main.objectLoop env abapLint objects options entered in
      let w1 := fst loop in
      let report :=
        match snd loop with
        | inl _ => failure_report (status w1)
        | inr _ => []
        end in
      calls (fst out)
      = calls w1 ++ report
        ++ [ELog (bold env (Main.stats_message (status w1) (length objects)));
            ESetSession stateless; EDropSession]
      /\ session (fst out) = stateless
      /\ status (fst out) = status w1
      /\ snd out = match fst (client_dropSession env (remote w1)) with
                   | inl dropped => inl dropped
                   | inr _ => snd loop
                   end
  end.
Proof.
  unfold Main.processObjects, Main.reportFailure, Main.cleanup,
    Main.stats, failure_report.
  unfold_monad.
  destruct (Main.loadConfig env abapLint w) as [w0 [failed | []]] eqn:Hconfig;
    cbn [fst snd remote status session trace].
  - unfold Main.loadConfig, call, ret, observe in Hconfig.
    destruct (Js.truthy abapLint
              && negb (Js.strict_eq abapLint (Some (ABAPLINT_DEFAULT env))));
      [| discriminate Hconfig].
    destruct (loadAbapLintConfig env (Js.show abapLint) (remote w))
      as [r r0].
    injection Hconfig as <- ->.
    cbn [fst snd remote status session trace].
    repeat split. apply calls_snoc.
  - destruct (Main.objectLoop env abapLint objects options _)
      as [w1 [e | []]]; cbn [fst snd remote status session trace].
    + destruct (currentInclude (status w1)) as [ci |];
        cbn [fst snd remote status session trace];
        answer; cbn [fst snd remote status session trace];
        repeat split; try reflexivity; unfold calls; cbn [trace];
        rewrite !map_app, <- !app_assoc; reflexivity.
    + answer; cbn [fst snd remote status session trace];
        repeat split; try reflexivity; unfold calls; cbn [trace];
        rewrite !map_app, <- !app_assoc; reflexivity.
Qed.

(** *** Idempotence of a run *)

Lemma quiet_refl (w : World R) : quiet w w.
Proof. split; reflexivity. Qed.

Lemma quiet_trans (w1 w2 w3 : World R) :
  quiet w1 w2 -> quiet w2 w3 -> quiet w1 w3.
Proof. intros [A B] [C D]. split; congruence. Qed.

Ltac close_quiet :=
  unfold quiet; cbn [fst snd status];
  split; [norm_calls; rewrite ?app_nil_r; reflexivity | reflexivity].

Section Stable.

Variable inv : R -> Prop.
Hypothesis Hstable : stable_under env abapLint inv.

Lemma processInclude_quiet (incl : AbapInclude) (options : Options)
  (w : World R) :
  inv (remote w) ->
  quiet_run inv w (Main.processInclude env abapLint incl options w).
Proof.
  intros Hinv. destruct Hstable as (Hformat & _ & _).
  unfold quiet_run. unfold_include.
  cbn [fst snd remote status session trace].
  destruct (client_getObjectSource env (sourceUrl incl) (remote w))
    as [[e | source] r1] eqn:Hread; cbn [fst snd remote status session trace].
  - split; [close_quiet | exact I].
  - destruct (Hformat incl (remote w) source r1 Hinv Hread)
      as (r2 & Hfmt & Hinv2).
    unfold Main.formatter in Hfmt.
    destruct (Js.truthy abapLint);
      cbn [fst snd remote status session trace];
      rewrite Hfmt; cbn [fst snd remote status session trace];
      rewrite String.eqb_refl;
      cbn [fst snd remote status session trace];
      (split; [close_quiet | exact Hinv2]).
Qed.

Lemma processIncludes_quiet (includes : list AbapInclude)
  (options : Options) (w : World R) :
  inv (remote w) ->
  quiet_run inv w (Main.processIncludes env abapLint includes options w).
Proof.
  revert w. induction includes as [| incl rest IH]; intros w Hinv.
  - split; [apply quiet_refl | exact Hinv].
  - cbn [Main.processIncludes]. unfold bind.
    generalize (processInclude_quiet incl options w Hinv).
    destruct (Main.processInclude env abapLint incl options w)
      as [w1 [e | []]]; intros [Hq Hinv1]; cbn [fst snd] in *.
    + split; [exact Hq | exact I].
    + destruct (IH w1 Hinv1) as [Hq' Hinv'].
      split; [exact (quiet_trans _ _ _ Hq Hq') | exact Hinv'].
Qed.

Lemma processObject_quiet (o : AbapObject) (options : Options)
  (w : World R) :
  inv (remote w) ->
  quiet_run inv w (Main.processObject env abapLint o options w).
Proof.
  intros Hinv. destruct Hstable as (_ & Hexpand & _).
  unfold quiet_run, Main.processObject. unfold_monad.
  cbn [fst snd remote status session trace].
  destruct (expand env o (remote w)) as [[e | incls] r1] eqn:Hexp;
    cbn [fst snd remote status session trace].
  - split; [close_quiet | exact I].
  - specialize (Hexpand o (remote w) incls r1 Hinv Hexp).
    match goal with
    | |- context [Main.processIncludes env abapLint incls options ?w2] =>
        generalize (processIncludes_quiet incls options w2 Hexpand);
        destruct (Main.processIncludes env abapLint incls options w2)
          as [w3 [e | []]]; cbn [fst snd remote status session trace];
        intros [Hq Hinv3]; cbn [fst snd] in Hq, Hinv3;
        (split; [refine (quiet_trans w w2 _ _ _); [close_quiet |] |])
    end.
    + exact Hq.
    + exact I.
    + destruct Hq as [Hc Hw]. split; [exact Hc | exact Hw].
    + exact Hinv3.
Qed.

Lemma objectLoop_quiet (objects : list AbapObject) (options : Options)
  (w : World R) :
  inv (remote w) ->
  quiet_run inv w (Main.objectLoop env abapLint objects options w).
Proof.
  revert w. induction objects as [| o rest IH]; intros w Hinv.
  - split; [apply quiet_refl | exact Hinv].
  - cbn [Main.objectLoop]. unfold bind.
    generalize (processObject_quiet o options w Hinv).
    destruct (Main.processObject env abapLint o options w)
      as [w1 [e | []]]; intros [Hq Hinv1]; cbn [fst snd] in *.
    + split; [exact Hq | exact I].
    + destruct (IH w1 Hinv1) as [Hq' Hinv'].
      split; [exact (quiet_trans _ _ _ Hq Hq') | exact Hinv'].
Qed.

Lemma processObjects_quiet (objects : list AbapObject) (options : Options)
  (w : World R) :
  inv (remote w) ->
  quiet w (fst (Main.processObjects env abapLint objects options w)).
Proof.
  intros Hinv. destruct Hstable as (_ & _ & Hconfig).
  unfold Main.processObjects, Main.loadConfig, Main.reportFailure,
    Main.cleanup, Main.stats.
  unfold_monad.
  assert (Hentered : inv (remote w) \/
            exists r0, loadAbapLintConfig env (Js.show abapLint) (remote w)
                       = (inr tt, r0) /\ inv r0).
  { left. exact Hinv. }
  destruct (Js.truthy abapLint
            && negb (Js.strict_eq abapLint (Some (ABAPLINT_DEFAULT env))));
    cbn [fst snd remote status session trace].
  1: destruct (loadAbapLintConfig env (Js.show abapLint) (remote w))
       as [[e | []] r0] eqn:Hload; cbn [fst snd remote status session trace];
       [close_quiet | specialize (Hconfig _ _ _ Hinv Hload)].
  all: match goal with
    | |- context [Main.objectLoop env abapLint _ _ ?w1] =>
        assert (Hinv1 : inv (remote w1)) by assumption;
        generalize (objectLoop_quiet objects options w1 Hinv1);
        destruct (Main.objectLoop env abapLint objects options w1)
          as [w2 [e | []]]; cbn [fst snd remote status session trace];
        intros [Hq _]; cbn [fst] in Hq;
        (refine (quiet_trans w w1 _ _ _); [close_quiet | ]);
        refine (quiet_trans w1 w2 _ Hq _)
    end.
  all: try destruct (currentInclude (status w2)) as [ci |];
    cbn [fst snd remote status session trace];
    answer; close_quiet.
Qed.

End Stable.

(** The consequence of C4 for a whole run: starting from a remote state
    on which the content has stabilised, [processObjects] makes no lock,
    write, unlock or activation call and counts nothing as written. *)
Theorem stable_run_is_quiet (inv : R -> Prop)
  (Hstable : stable_under env abapLint inv)
  (objects : list AbapObject) (options : Options) (w : World R)
  (Hinv : inv (remote w)) :
  let out := Main.processObjects env abapLint objects options w in
  count is_mutating (calls (fst out)) = count is_mutating (calls w)
  /\ writtenIncludes (status (fst out)) = writtenIncludes (status w).
Proof.
  cbn zeta. unfold count.
  destruct (processObjects_quiet inv Hstable objects options w Hinv)
    as [Hc Hw].
  rewrite Hc. split; [reflexivity | exact Hw].
Qed.

(** *** Manifest mode *)

Lemma filter_from_later (i : nat) (lines : list string) :
  Js.filter_from Main.keepLine (S i) lines = filter Main.nonempty lines.
Proof.
  revert i. induction lines as [| l rest IH]; intros i; cbn.
  - reflexivity.
  - unfold Main.keepLine at 1, Main.isHeader, Main.nonempty at 1.
    cbn. rewrite andb_true_r, IH. reflexivity.
Qed.

Lemma contains_char_nonempty (c : ascii) (s : string) :
  Js.contains_char c s = true -> Main.nonempty s = true.
Proof. destruct s; [discriminate | reflexivity]. Qed.

Lemma filter_from_data_lines (lines : list string) :
  Js.filter_from Main.keepLine 0 lines = data_lines lines.
Proof.
  destruct lines as [| first rest]; [reflexivity |].
  cbn [Js.filter_from data_lines]. rewrite filter_from_later.
  unfold Main.keepLine, Main.isHeader. cbn [Nat.eqb andb].
  destruct (Js.contains_char SLASH first) eqn:Hs; cbn [negb].
  - apply contains_char_nonempty in Hs. unfold Main.nonempty in Hs.
    rewrite Hs. reflexivity.
  - rewrite andb_false_r. reflexivity.
Qed.

Lemma parseRow_valid (path : string) (i : nat) (row : Js.pieces) :
  row_valid env row = true ->
  Main.parseRow env path i row = inr (row_object row).
Proof.
  destruct row as [type rest]. unfold row_valid, Main.parseRow, row_object.
  cbn [fst snd]. intros H. apply andb_true_iff in H as [Ht Hu].
  rewrite Ht. cbn [negb].
  destruct rest as [| name [| url more]]; try discriminate.
  unfold Main.nonempty in Hu. apply negb_true_iff in Hu. rewrite Hu.
  reflexivity.
Qed.

Lemma parseRow_invalid (path : string) (i : nat) (row : Js.pieces) :
  row_valid env row = false ->
  Main.parseRow env path i row
  = inl (CLIError (if supportedType env (fst row)
                   then url_missing_message path row
                   else unsupported_message path row i)).
Proof.
  destruct row as [type rest].
  unfold row_valid, Main.parseRow, url_missing_message,
    unsupported_message.
  cbn [fst snd]. intros H.
  destruct (supportedType env type); cbn [negb andb] in *.
  - destruct rest as [| name [| url more]]; try reflexivity.
    unfold Main.nonempty in H. apply negb_false_iff in H. rewrite H.
    reflexivity.
  - reflexivity.
Qed.

Lemma parseRows_first_invalid (path : string) (rows : list Js.pieces)
  (i : nat) :
  match first_invalid env rows with
  | None => Main.parseRows env path i rows = inr (map row_object rows)
  | Some bad =>
      if supportedType env (fst bad) then
        Main.parseRows env path i rows
        = inl (CLIError (url_missing_message path bad))
      else
        exists j,
          Main.parseRows env path i rows
          = inl (CLIError (unsupported_message path bad j))
  end.
Proof.
  revert i. unfold first_invalid.
  induction rows as [| row rest IH]; intros i; cbn [find Main.parseRows].
  - reflexivity.
  - destruct (row_valid env row) eqn:Hv; cbn [negb].
    + rewrite (parseRow_valid path i row Hv).
      specialize (IH (S i)).
      destruct (find (fun r => negb (row_valid env r)) rest) as [bad |].
      * destruct (supportedType env (fst bad)).
        -- rewrite IH. reflexivity.
        -- destruct IH as [j Hj]. exists j. rewrite Hj. reflexivity.
      * rewrite IH. reflexivity.
    + rewrite (parseRow_invalid path i row Hv).
      destruct (supportedType env (fst row)).
      * reflexivity.
      * exists i. reflexivity.
Qed.

Lemma list_reads_manifest (path text : string) (rec : bool) (w : World R)
  (r1 : R) :
  path <> EmptyString ->
  readFileSync env path (remote w) = (inr text, r1) ->
  let out :=
    Main.list env EmptyString EmptyString
      {| file := Some path; recursive := rec |} w in
  calls (fst out) = calls w ++ [EReadFile path]
  /\ snd out
     = Main.parseRows env path 0
         (map Js.split_ws3
              (data_lines (Js.to_list (Js.split_on LF text)))).
Proof.
  intros Hpath Hread.
  unfold Main.list. cbn [file recursive Js.truthy Js.show].
  apply String.eqb_neq in Hpath. rewrite Hpath.
  unfold_monad. cbn [Main.nonempty String.eqb negb orb andb].
  cbn [fst snd remote status session trace].
  rewrite Hread. cbn [fst snd remote status session trace].
  split; [apply calls_snoc |].
  unfold Main.parseManifest. rewrite filter_from_data_lines.
  reflexivity.
Qed.

(** C9, as the code has it: in manifest mode [list] parses the lines of
    the file as rows, dropping the first line only if it holds no path
    separator and dropping every empty line.  It returns the descriptors
    of the rows in file order when every row has a supported type and a
    url.  Otherwise it throws at the first row that has not: for an
    unsupported type, an error naming the type and the file; for a
    missing url, an error naming the type, the name and the file, without
    a line number. *)
Theorem list_manifest (path text : string) (rec : bool) (w : World R)
  (r1 : R)
  (Hpath : path <> EmptyString)
  (Hread : readFileSync env path (remote w) = (inr text, r1)) :
  let out :=
    Main.list env EmptyString EmptyString
      {| file := Some path; recursive := rec |} w in
  let rows :=
    map Js.split_ws3 (data_lines (Js.to_list (Js.split_on LF text))) in
  calls (fst out) = calls w ++ [EReadFile path]
  /\ match first_invalid env rows with
     | None => snd out = inr (map row_object rows)
     | Some bad =>
         if supportedType env (fst bad) then
           snd out = inl (CLIError (url_missing_message path bad))
         else
           exists i,
             snd out = inl (CLIError (unsupported_message path bad i))
     end.
Proof.
  destruct (list_reads_manifest path text rec w r1 Hpath Hread)
    as [Hcalls Hout].
  cbn zeta. split; [exact Hcalls |]. rewrite Hout.
  apply parseRows_first_invalid.
Qed.

(** Rows and lines, as text. *)

Lemma split_on_no_newline (s : string) :
  no_newline s = true -> Js.split_on LF s = (s, []).
Proof.
  unfold no_newline.
  induction s as [| c s IH]; cbn [Js.contains_char Js.split_on];
    [reflexivity |].
  rewrite (Ascii.eqb_sym LF c).
  destruct (Ascii.eqb c LF); cbn [orb negb]; intros H; [discriminate H |].
  rewrite (IH H). reflexivity.
Qed.

Lemma split_on_app (s t : string) :
  no_newline s = true ->
  Js.split_on LF (s ++ NL ++ t) = (s, Js.to_list (Js.split_on LF t)).
Proof.
  unfold no_newline.
  induction s as [| c s IH];
    cbn [Js.contains_char Js.split_on String.append].
  - intros _. unfold NL. cbn [String.append Js.split_on].
    destruct (Js.split_on LF t) as [p ps].
    unfold LF. rewrite Ascii.eqb_refl. reflexivity.
  - rewrite (Ascii.eqb_sym LF c).
    destruct (Ascii.eqb c LF); cbn [orb negb]; intros H; [discriminate H |].
    rewrite (IH H). reflexivity.
Qed.

(** Splitting the text of a file gives its lines back. *)
Lemma split_on_join_lines (first : string) (rest : list string) :
  forallb no_newline (first :: rest) = true ->
  Js.to_list (Js.split_on LF (join_lines (first :: rest))) = first :: rest.
Proof.
  revert first. unfold join_lines.
  induction rest as [| l rest IH]; intros first H; cbn in H.
  - apply andb_true_iff in H as [H _]. cbn [String.concat].
    rewrite (split_on_no_newline first H). reflexivity.
  - apply andb_true_iff in H as [Hf Hr].
    change (String.concat NL (first :: l :: rest))
      with (first ++ NL ++ String.concat NL (l :: rest))%string.
    rewrite (split_on_app first _ Hf). unfold Js.to_list at 1.
    cbn [fst snd]. f_equal. apply (IH l). exact Hr.
Qed.

Lemma split_ws_word (s : string) (in_ws : bool) :
  is_field s = true -> Js.split_ws_from in_ws s = (s, []).
Proof.
  unfold is_field. destruct s as [| c s]; [discriminate |].
  cbn [Main.nonempty String.eqb negb andb].
  assert (Hword : forall t, no_space t = true ->
                    Js.split_ws_from false t = (t, [])).
  { induction t as [| d t IH]; cbn [no_space Js.split_ws_from];
      [reflexivity |].
    intros H. apply andb_true_iff in H as [Hd Ht].
    apply negb_true_iff in Hd. rewrite Hd, (IH Ht). reflexivity. }
  cbn [no_space Js.split_ws_from]. intros H.
  apply andb_true_iff in H as [Hc Hs]. apply negb_true_iff in Hc.
  rewrite Hc, (Hword s Hs). reflexivity.
Qed.

Lemma split_ws_field (s rest : string) (in_ws : bool) :
  is_field s = true ->
  Js.split_ws_from in_ws (s ++ " " ++ rest)
  = (s, Js.to_list (Js.split_ws_from true rest)).
Proof.
  change (" " ++ rest)%string with (String " " rest).
  unfold is_field. destruct s as [| c s]; [discriminate |].
  cbn [Main.nonempty String.eqb negb andb].
  assert (Hword : forall t, no_space t = true ->
                    Js.split_ws_from false (t ++ String " " rest)
                    = (t, Js.to_list (Js.split_ws_from true rest))).
  { induction t as [| d t IH].
    - intros _. reflexivity.
    - cbn [no_space Js.split_ws_from String.append].
      intros H. apply andb_true_iff in H as [Hd Ht].
      apply negb_true_iff in Hd. rewrite Hd, (IH Ht). reflexivity. }
  cbn [no_space Js.split_ws_from String.append]. intros H.
  apply andb_true_iff in H as [Hc Hs]. apply negb_true_iff in Hc.
  rewrite Hc, (Hword s Hs). reflexivity.
Qed.

(** A row of three fields splits into its fields. *)
Lemma split_ws3_fields (type name url : string) :
  is_field type = true -> is_field name = true -> is_field url = true ->
  Js.split_ws3 (row_text type name url) = (type, [name; url]).
Proof.
  intros Ht Hn Hu. unfold Js.split_ws3, row_text.
  rewrite (split_ws_field type _ false Ht).
  rewrite (split_ws_field name _ true Hn).
  rewrite (split_ws_word url true Hu). reflexivity.
Qed.

Lemma no_space_no_newline (s : string) :
  no_space s = true -> no_newline s = true.
Proof.
  unfold no_newline.
  induction s as [| c s IH]; cbn [no_space Js.contains_char];
    [reflexivity |].
  intros H. apply andb_true_iff in H as [Hc Hs].
  specialize (IH Hs). apply negb_true_iff in IH. rewrite IH, orb_false_r.
  destruct (Ascii.eqb_spec LF c) as [<- | _]; [discriminate Hc | reflexivity].
Qed.

Lemma no_newline_app (a b : string) :
  no_newline (a ++ b) = no_newline a && no_newline b.
Proof.
  unfold no_newline.
  induction a as [| c a IH]; cbn [String.append Js.contains_char];
    [reflexivity |].
  destruct (Ascii.eqb LF c); cbn [orb negb andb]; [reflexivity | exact IH].
Qed.

Lemma row_text_line (type name url : string) :
  is_field type = true -> is_field name = true -> is_field url = true ->
  no_newline (row_text type name url) = true
  /\ Main.nonempty (row_text type name url) = true.
Proof.
  unfold is_field, row_text. intros Ht Hn Hu.
  apply andb_true_iff in Ht as [Ht0 Ht], Hn as [_ Hn], Hu as [_ Hu].
  split.
  - rewrite !no_newline_app.
    rewrite (no_space_no_newline type Ht), (no_space_no_newline name Hn),
      (no_space_no_newline url Hu).
    reflexivity.
  - destruct type; [discriminate Ht0 | reflexivity].
Qed.

(** The three-line manifest of the specification: a header without path
    separator followed by two rows of three fields with supported types
    gives the descriptors of the two rows, in file order. *)
Theorem manifest_three_lines
  (path header t1 n1 u1 t2 n2 u2 : string) (rec : bool) (w : World R)
  (r1 : R) :
  path <> EmptyString ->
  no_newline header = true ->
  Js.contains_char SLASH header = false ->
  is_field t1 = true -> is_field n1 = true -> is_field u1 = true ->
  is_field t2 = true -> is_field n2 = true -> is_field u2 = true ->
  supportedType env t1 = true -> supportedType env t2 = true ->
  readFileSync env path (remote w)
  = (inr (join_lines [header; row_text t1 n1 u1; row_text t2 n2 u2]), r1) ->
  snd (Main.list env EmptyString EmptyString
         {| file := Some path; recursive := rec |} w)
  = inr [ {| obj_type := t1; obj_name := n1; obj_url := Some u1 |};
          {| obj_type := t2; obj_name := n2; obj_url := Some u2 |} ].
Proof.
  intros Hpath Hh Hslash Ht1 Hn1 Hu1 Ht2 Hn2 Hu2 Hs1 Hs2 Hread.
  destruct (list_reads_manifest path _ rec w r1 Hpath Hread) as [_ Hout].
  cbn zeta in Hout. rewrite Hout. clear Hout.
  destruct (row_text_line t1 n1 u1 Ht1 Hn1 Hu1) as [Hl1 He1].
  destruct (row_text_line t2 n2 u2 Ht2 Hn2 Hu2) as [Hl2 He2].
  rewrite split_on_join_lines
    by (cbn [forallb]; rewrite Hh, Hl1, Hl2; reflexivity).
  cbn [data_lines filter app]. rewrite Hslash, He1, He2.
  rewrite app_nil_l. change (map Js.split_ws3 [?a; ?b])
    with [Js.split_ws3 a; Js.split_ws3 b].
  rewrite !split_ws3_fields by assumption.
  cbn [Main.parseRows].
  rewrite !parseRow_valid.
  - reflexivity.
  - unfold row_valid. cbn [fst snd]. rewrite Hs2.
    unfold is_field in Hu2. apply andb_true_iff in Hu2 as [-> _].
    reflexivity.
  - unfold row_valid. cbn [fst snd]. rewrite Hs1.
    unfold is_field in Hu1. apply andb_true_iff in Hu1 as [-> _].
    reflexivity.
Qed.
(** *** The status invariant along a run *)

Lemma started_app (tr1 tr2 : list Obs) :
  started (tr1 ++ tr2) = started tr1 + started tr2.
Proof.
  unfold started, count. now rewrite map_app, filter_app, length_app.
Qed.

Lemma run_ok_app (tr1 tr2 : list Obs) (seen : nat) :
  run_ok seen (tr1 ++ tr2)
  = run_ok seen tr1 && run_ok (seen + started tr1) tr2.
Proof.
  revert seen. induction tr1 as [| o tr1 IH]; intros seen; cbn.
  - now rewrite Nat.add_0_r.
  - rewrite IH. unfold started, count; cbn.
    destruct (is_read (ev o)); cbn; rewrite <- andb_assoc;
      repeat f_equal; lia.
Qed.

Lemma good_append (w w' : World R) (new : list Obs) :
  good w ->
  trace w' = trace w ++ new ->
  run_ok (started (trace w)) new = true ->
  writtenIncludes (status w') <= processedIncludes (status w') ->
  processedIncludes (status w') <= started (trace w) + started new ->
  good w'.
Proof.
  intros (Hrun & _ & _) Htrace Hnew Hwp Hps. unfold good.
  rewrite Htrace, run_ok_app, started_app, Hrun, Nat.add_0_l, Hnew.
  repeat split; assumption.
Qed.

Ltac checks :=
  repeat match goal with
    | |- (_ && _) = true => apply andb_true_intro; split
    | |- (_ <=? _)%nat = true => apply Nat.leb_le; lia
    | |- (?s =? ?s)%string = true => apply String.eqb_refl
    | |- true = true => reflexivity
    end.

(** Closes [good] of a world whose trace is that of [w] followed by
    explicit observations. *)
Ltac close_good w Hg :=
  cbn [fst snd];
  eapply (good_append w _ _ Hg);
  [ cbn [trace]; repeat rewrite <- app_assoc; cbn [app]; reflexivity
  | destruct Hg as (_ & ? & ?);
    generalize dependent (started (trace w)); intros;
    unfold run_ok, checkpoint_ok, counters_ok;
    cbn -[String.eqb Nat.leb]; checks
  | destruct Hg as (_ & ? & ?); cbn; lia
  | destruct Hg as (_ & ? & ?);
    generalize dependent (started (trace w)); intros;
    unfold started, count; cbn; lia ].

(** Case analysis on every answer and every test met along a run. *)
Ltac explore :=
  repeat (cbn [fst snd remote status session trace];
    first
      [ answer
      | match goal with
        | |- context [abapLintprettyPrint env ?a ?b ?x] =>
            destruct (abapLintprettyPrint env a b x) as [[?e | ?f] ?r]
        | |- context [client_prettyPrinter env ?a ?x] =>
            destruct (client_prettyPrinter env a x) as [[?e | ?f] ?r]
        | |- context [Main.validateTransport ?l ?k ?t] =>
            destruct (Main.validateTransport l k t) as [?e | []]
        | |- context [if ?c then _ else _] =>
            match type of c with bool => destruct c eqn:? end
        end ]).

Lemma processInclude_good (incl : AbapInclude) (options : Options)
  (w : World R) :
  let out := Main.processInclude env abapLint incl options w in
  include_effect incl w out /\ (idle w -> idle_after out).
Proof.
  unfold idle_after, include_effect.
  unfold_include. unfold Main.write, Main.activate, Main.key_of.
  unfold_monad.
  explore.
  all: cbn [fst snd status currentInclude processedIncludes
            writtenIncludes].
  all: split; [repeat split; lia |].
  all: intros [Hg Hi];
    (split; [close_good w Hg | first [exact I | reflexivity]]).
Qed.

Lemma processIncludes_good (includes : list AbapInclude)
  (options : Options) (w : World R) :
  idle w -> idle_after (Main.processIncludes env abapLint includes options w).
Proof.
  revert w. induction includes as [| incl rest IH]; intros w Hw.
  - destruct Hw as [Hg Hi]. split; [exact Hg | exact Hi].
  - cbn [Main.processIncludes]. unfold bind.
    destruct (processInclude_good incl options w) as [_ Hstep].
    specialize (Hstep Hw).
    destruct (Main.processInclude env abapLint incl options w)
      as [w1 [e | []]].
    + exact Hstep.
    + apply IH. exact Hstep.
Qed.

Lemma processObject_good (o : AbapObject) (options : Options)
  (w : World R) :
  idle w -> idle_after (Main.processObject env abapLint o options w).
Proof.
  intros [Hg Hi]. unfold Main.processObject. unfold_monad.
  cbn [remote status session trace].
  answer.
  - split; [close_good w Hg; rewrite Hi; reflexivity | exact I].
  - match goal with
    | |- context [Main.processIncludes env abapLint incls options ?w2] =>
        assert (Hidle : idle w2);
        [ split; [close_good w Hg; rewrite Hi; reflexivity | exact Hi]
        | generalize (processIncludes_good incls options w2 Hidle);
          destruct (Main.processIncludes env abapLint incls options w2)
            as [w3 [e | []]] ]
    end.
    + intros H; exact H.
    + intros [(Hrun & Hwp & Hps) Hcur]. cbn [fst snd] in *.
      split; [split; [| split] | ]; assumption.
Qed.

Lemma objectLoop_good (objects : list AbapObject) (options : Options)
  (w : World R) :
  idle w -> idle_after (Main.objectLoop env abapLint objects options w).
Proof.
  revert w. induction objects as [| o rest IH]; intros w Hw.
  - destruct Hw as [Hg Hi]. split; [exact Hg | exact Hi].
  - cbn [Main.objectLoop]. unfold bind.
    generalize (processObject_good o options w Hw).
    destruct (Main.processObject env abapLint o options w)
      as [w1 [e | []]]; intros Hstep.
    + exact Hstep.
    + apply IH. exact Hstep.
Qed.

Lemma processObjects_good (objects : list AbapObject) (options : Options)
  (w : World R) :
  idle w -> idle_after (Main.processObjects env abapLint objects options w).
Proof.
  intros [Hg Hi].
  unfold Main.processObjects, Main.loadConfig, Main.reportFailure,
    Main.cleanup, Main.stats.
  unfold bind at 1.
  assert (Hentered : forall w0 : World R, idle w0 ->
            idle_after
              ((set_session stateful ;;
                try_finally
                  (try_catch
                     (Main.objectLoop env abapLint objects options)
                     (fun error =>
                        cli_action_stop (Some "failed!") ;;
                        s <- get_status ;;
                        cli_log ("Last object "
                                 ++ Js.show (option_map obj_type
                                               (currentObject s))
                                 ++ " "
                                 ++ Js.show (option_map obj_name
                                               (currentObject s))) ;;
                        match currentInclude s with
                        | Some ci =>
                            cli_log ("Last include " ++ incl_type ci
                                     ++ " " ++ incl_name ci)
                        | None => ret tt
                        end ;;
                        throw error))
                  (s <- get_status ;;
                   cli_log (bold env
                              (Main.stats_message s (length objects))) ;;
                   set_session stateless ;;
                   call EDropSession (client_dropSession env)))%js w0)).
  { intros w0 [Hg0 Hi0]. unfold_monad.
    match goal with
    | |- context [Main.objectLoop env abapLint objects options ?w1] =>
        assert (Hidle : idle w1);
        [ split; [close_good w0 Hg0 | exact Hi0]
        | generalize (objectLoop_good objects options w1 Hidle);
          destruct (Main.objectLoop env abapLint objects options w1)
            as [w2 [e | []]] ]
    end.
    - intros [Hg2 _]. cbn [fst snd] in Hg2.
      cbn [fst snd remote status session trace].
      destruct (currentInclude (status w2)) as [ci |];
        cbn [fst snd remote status session trace];
        answer; (split; [close_good w2 Hg2 | exact I]).
    - intros [Hg2 Hi2]. cbn [fst snd] in *.
      cbn [fst snd remote status session trace];
        answer; (split; [close_good w2 Hg2 | first [exact I | exact Hi2]]). }
  destruct (Js.truthy abapLint
            && negb (Js.strict_eq abapLint (Some (ABAPLINT_DEFAULT env)))).
  - unfold call at 1.
    destruct (loadAbapLintConfig env (Js.show abapLint) (remote w))
      as [[e | []] r0].
    + split; [close_good w Hg | exact I].
    + apply Hentered. split; [close_good w Hg | exact Hi].
  - apply Hentered. split; assumption.
Qed.

(** C8, as the code has it: in a run of [processObjects] by a fresh
    [Main], at every call the run makes other than the plain
    [cli.action.stop()] the counters satisfy
    writtenIncludes <= processedIncludes <= includes seen so far; every
    call of an include's pipeline is made with [currentInclude] set to
    that include, and every call of the expander with [currentInclude]
    unset; the same ordering of the counters holds when the run ends.
    [processInclude] clears [currentInclude] when it returns and leaves
    it set to its include when it throws; it adds one to
    [processedIncludes] and at most one to [writtenIncludes] when it
    returns, and changes neither counter when it throws. *)
Theorem status_invariant (objects : list AbapObject) (options : Options)
  (mode : session_types) (r : R) (incl : AbapInclude) (w : World R) :
  let out :=
    Main.processObjects env abapLint objects options (fresh mode r) in
  let s := status (fst out) in
  run_ok 0 (trace (fst out)) = true
  /\ writtenIncludes s <= processedIncludes s
  /\ processedIncludes s <= started (trace (fst out))
  /\ match snd out with
     | inr _ => currentInclude s = None
     | inl _ => True
     end
  /\ include_effect incl w
       (Main.processInclude env abapLint incl options w).
Proof.
  intros out s. subst out s.
  destruct (processObjects_good objects options (fresh mode r))
    as [(Hrun & Hwp & Hps) Hcur].
  { repeat split; cbn; lia. }
  repeat split; try assumption.
  apply processInclude_good.
Qed.

(** ** Further properties of the code *)

Lemma count_app (p : Event -> bool) (a b : list Event) :
  count p (a ++ b) = count p a + count p b.
Proof. unfold count. now rewrite filter_app, length_app. Qed.

(** *** Activation and writing *)

(** X1: for an include of type PROG/I, [activate] looks up the main
    programs by the include's metadata URL and then makes one activation
    call with the first main program as context, whose outcome it returns:
    there is no second pass, whatever the answer lists as inactive.  A
    failing lookup is thrown on, and an empty answer of the lookup throws,
    in both cases without any activation call. *)
Theorem activate_program_include (incl : AbapInclude) (w : World R)
  (Hvariant : (incl_type incl =? "PROG/I") = true) :
  let lookup := client_mainPrograms env (metaUrl incl) (remote w) in
  let out := Main.activate env incl w in
  match fst lookup with
  | inl e =>
      snd out = inl e
      /\ calls (fst out) = calls w ++ [EMainPrograms (metaUrl incl)]
  | inr [] =>
      is_error (snd out) = true
      /\ calls (fst out) = calls w ++ [EMainPrograms (metaUrl incl)]
  | inr (m :: _) =>
      let context := Some (adtcore_uri m) in
      let activation :=
        client_activate env (incl_name incl) (sourceUrl incl) context
          (snd lookup) in
      snd out = fst activation
      /\ remote (fst out) = snd activation
      /\ calls (fst out)
         = calls w ++ [EMainPrograms (metaUrl incl);
                       EActivate (incl_name incl) (sourceUrl incl) context]
  end.
Proof.
  unfold Main.activate. rewrite Hvariant. unfold_monad.
  destruct (client_mainPrograms env (metaUrl incl) (remote w))
    as [[e | [| m ms]] r1]; cbn [fst snd remote status session trace].
  - split; [reflexivity | apply calls_snoc].
  - split; [reflexivity | apply calls_snoc].
  - destruct (client_activate env (incl_name incl) (sourceUrl incl)
                (Some (adtcore_uri m)) r1) as [a r2];
      cbn [fst snd remote status session trace].
    repeat split. norm_calls. reflexivity.
Qed.

(** The outcome of [activate] depends on the remote state only, and
    [activate] leaves the status and the session mode alone. *)
Lemma activate_frame (incl : AbapInclude) (w : World R) :
  let out := Main.activate env incl w in
  snd out = fst (activation_outcome env incl (remote w))
  /\ remote (fst out) = snd (activation_outcome env incl (remote w))
  /\ status (fst out) = status w
  /\ session (fst out) = session w
  /\ exists new,
       calls (fst out) = calls w ++ new /\ forallb is_activation new = true.
Proof.
  unfold activation_outcome, fresh. run_activate.
  all: repeat split; eexists; (split; [norm_calls; reflexivity | reflexivity]).
Qed.

(** X2: in a real run, once the handle check, the validation, the remote
    write and the unlock have succeeded, [write] counts the include as
    written exactly when activation returns a result that reports
    success.  When the result reports failure, [write] throws the short
    text of the first message, or "Failed to activate" with the include's
    key when there is no message or its short text is empty, and the
    status is left as it was, the include having been written and
    unlocked. *)
Theorem write_real_run_outcome (incl : AbapInclude) (formatted : string)
  (lock : AdtLock) (t : option string) (w : World R) (r1 r2 r3 : R)
  (active : ActivationResult)
  (Hhandle : Js.truthy (LOCK_HANDLE lock) = true)
  (Hvalid : Main.validateTransport lock (Main.key_of incl) t = inr tt)
  (Hwrite : client_setObjectSource env (sourceUrl incl) formatted
              (LOCK_HANDLE lock) t (remote w) = (inr tt, r1))
  (Hunlock : client_unLock env (sourceUrl incl) (LOCK_HANDLE lock) r1
             = (inr tt, r2))
  (Hactivate : activation_outcome env incl r2 = (inr active, r3)) :
  let out :=
    Main.write env incl formatted lock {| test := false; transport := t |} w
  in
  remote (fst out) = r3
  /\ count is_setObjectSource (calls (fst out))
     = S (count is_setObjectSource (calls w))
  /\ count is_unlock (calls (fst out)) = S (count is_unlock (calls w))
  /\ if success active then
       snd out = inr tt /\ status (fst out) = counted_written (status w)
     else
       snd out
       = inl (CLIError
                (match messages active with
                 | m :: _ =>
                     if shortText m =? EmptyString
                     then "Failed to activate " ++ Main.key_of incl
                     else shortText m
                 | [] => "Failed to activate " ++ Main.key_of incl
                 end)%string)
       /\ status (fst out) = status w.
Proof.
  unfold Main.write; unfold_monad; cbn [test transport].
  rewrite Hhandle; cbn [negb]. rewrite Hvalid.
  cbn [fst snd remote status session trace]. rewrite Hwrite.
  cbn [fst snd remote status session trace]. rewrite Hunlock.
  cbn [fst snd remote status session trace].
  match goal with
  | |- context [Main.activate env incl ?w0] =>
      set (w3 := w0);
      destruct (activate_frame incl w3)
        as (Hres & Hrem & Hst & _ & new & Hnew & Hact);
      cbn [remote w3] in Hres, Hrem; rewrite Hactivate in Hres, Hrem;
      cbn [fst snd] in Hres, Hrem;
      destruct (Main.activate env incl w3) as [w4 r4]
  end.
  cbn [fst snd] in *. subst r4.
  assert (Hcount : forall p : Event -> bool,
            (forall e, is_activation e = true -> p e = false) ->
            count p new = 0).
  { intros p Hp. unfold count. clear Hnew.
    induction new as [| e new IH]; [reflexivity |].
    cbn [forallb] in Hact. apply andb_true_iff in Hact as [He Hrest].
    cbn [filter]. rewrite (Hp e He). exact (IH Hrest). }
  assert (Hset : count is_setObjectSource new = 0)
    by (apply Hcount; intros [] He; try discriminate He; reflexivity).
  assert (Hunl : count is_unlock new = 0)
    by (apply Hcount; intros [] He; try discriminate He; reflexivity).
  assert (H3 : exists done,
            calls w3 = calls w ++ done
            /\ count is_setObjectSource done = 1
            /\ count is_unlock done = 1).
  { eexists. split.
    - unfold calls, w3; cbn [trace]. repeat rewrite <- app_assoc.
      rewrite map_app. reflexivity.
    - split; reflexivity. }
  destruct H3 as (done & H3 & Hdset & Hdunl).
  assert (H4set : count is_setObjectSource (calls w4)
                  = S (count is_setObjectSource (calls w)))
    by (rewrite Hnew, H3, !count_app, Hset, Hdset; lia).
  assert (H4unl : count is_unlock (calls w4) = S (count is_unlock (calls w)))
    by (rewrite Hnew, H3, !count_app, Hunl, Hdunl; lia).
  unfold Js.or_else, Main.first_shortText.
  destruct (success active); cbn [negb fst snd remote status session trace].
  - repeat split; try assumption.
    + unfold calls at 1; cbn [trace]. rewrite map_app.
      change (map ev (trace w4)) with (calls w4).
      rewrite count_app, H4set. cbn. lia.
    + unfold calls at 1; cbn [trace]. rewrite map_app.
      change (map ev (trace w4)) with (calls w4).
      rewrite count_app, H4unl. cbn. lia.
    + rewrite Hst. reflexivity.
  - repeat split; try assumption.
    destruct (messages active) as [| m ms]; reflexivity.
Qed.

(** *** One include, in calls *)

(** Case analysis as in [explore], for statements that test whether the
    run failed. *)
Ltac survey :=
  repeat (cbn [fst snd remote status session trace is_error];
    first
      [ answer
      | match goal with
        | |- context [abapLintprettyPrint env ?a ?b ?x] =>
            destruct (abapLintprettyPrint env a b x) as [[?e | ?f] ?r]
        | |- context [client_prettyPrinter env ?a ?x] =>
            destruct (client_prettyPrinter env a x) as [[?e | ?f] ?r]
        | |- context [Main.validateTransport ?l ?k ?t] =>
            destruct (Main.validateTransport l k t) as [?e | []]
        | |- context [if ?c then _ else _] =>
            match type of c with
            | bool =>
                lazymatch c with
                | is_error _ => fail
                | _ => destruct c eqn:?
                end
            end
        end ]).

Lemma write_status (incl : AbapInclude) (formatted : string)
  (lock : AdtLock) (options : Options) (w : World R) :
  let out := Main.write env incl formatted lock options w in
  session (fst out) = session w
  /\ status (fst out)
     = (if is_error (snd out) then status w else counted_written (status w)).
Proof.
  unfold Main.write, Main.activate, Main.key_of. unfold_monad.
  survey.
  all: cbn [fst snd status session is_error]; split; reflexivity.
Qed.

(** X3: [write] never touches the session mode, and the only change it
    makes to the status is to add one to [writtenIncludes], which it does
    exactly when it returns normally. *)
Theorem write_frame (incl : AbapInclude) (formatted : string)
  (lock : AdtLock) (options : Options) (w : World R) :
  let out := Main.write env incl formatted lock options w in
  session (fst out) = session w
  /\ status (fst out)
     = (if is_error (snd out) then status w else counted_written (status w)).
Proof. apply write_status. Qed.

Ltac settle_tests :=
  repeat match goal with
    | H : negb ?b = _ |- _ =>
        destruct b; cbn [negb] in H; try discriminate H; clear H
    end.

(** The calls made since [w], as an explicit list. *)
Ltac new_calls :=
  unfold calls; cbn [trace]; repeat rewrite <- app_assoc;
  rewrite ?map_app; cbn [map ev app];
  first [reflexivity | symmetry; apply app_nil_r].

(** The calls of one run of [write]. *)
Lemma write_summary (incl : AbapInclude) (formatted : string)
  (lock : AdtLock) (options : Options) (w : World R) :
  let out := Main.write env incl formatted lock options w in
  exists new,
    calls (fst out) = calls w ++ new
    /\ write_tally (test options) new
    /\ (is_error (snd out) = false -> count is_unlock new = 1).
Proof.
  unfold Main.write, Main.activate, Main.key_of. unfold_monad.
  survey.
  all: settle_tests.
  all: cbn [fst snd is_error].
  all: eexists; (split; [new_calls |]).
  all: unfold write_tally;
    (split; [| intros H; first [discriminate H | reflexivity]]).
  all: destruct (test options); repeat split; vm_compute; lia.
Qed.

(** Counts of explicit calls, sums over concatenations. *)
Ltac tally_up :=
  unfold count in *; rewrite ?filter_app, ?length_app;
  cbn [filter length app is_read is_lock is_unlock is_setObjectSource
       is_activation is_prettyPrinter is_abapLintprettyPrint
       is_session is_config is_expand orb];
  lia.

(** The calls of one run of [processInclude], and what they do to the
    status. *)
Lemma processInclude_summary (incl : AbapInclude) (options : Options)
  (w : World R) :
  let out := Main.processInclude env abapLint incl options w in
  exists new,
    calls (fst out) = calls w ++ new
    /\ include_tally (Js.truthy abapLint) (test options) new
    /\ session (fst out) = session w
    /\ same_object (status w) (status (fst out))
    /\ processedIncludes (status (fst out))
       = processedIncludes (status w)
         + (if is_error (snd out) then 0 else 1)
    /\ writtenIncludes (status (fst out))
       = writtenIncludes (status w)
         + (if is_error (snd out) then 0 else count is_unlock new).
Proof.
  unfold same_object, include_tally, tally.
  unfold_include. unfold_monad.
  survey.
  all: try match goal with
    | |- context [Main.write env ?i ?f ?l ?o ?w5] =>
        destruct (write_summary i f l o w5) as (wnew & Hcalls & Htally & Hok);
        destruct (write_status i f l o w5) as (Hsession & Hstatus);
        unfold write_tally in Htally;
        destruct (Main.write env i f l o w5) as [w6 [e | []]];
        cbn [fst snd is_error] in Hcalls, Hok, Hsession, Hstatus;
        try specialize (Hok eq_refl)
    end.
  all: cbn [fst snd status session trace is_error currentObject
            processedObjects processedIncludes writtenIncludes].
  all: try (rewrite Hstatus, Hsession;
            cbn [status session counted_written currentObject
                 processedObjects processedIncludes writtenIncludes]).
  all: eexists;
    (split;
     [ first
         [ new_calls
         | unfold calls at 1; cbn [trace]; repeat rewrite <- app_assoc;
           rewrite ?map_app; change (map ev (trace w6)) with (calls w6);
           rewrite Hcalls; unfold calls; cbn [trace];
           repeat rewrite <- app_assoc; rewrite ?map_app;
           repeat rewrite <- app_assoc; cbn [map ev]; reflexivity ]
     |]).
  all: try clear Hcalls Hstatus Hsession;
    repeat match goal with H : _ = (_, _) |- _ => clear H end.
  all: destruct (test options), (Js.truthy abapLint);
    try (cbn iota in Htally; decompose [and] Htally);
    repeat split;
    lazymatch goal with
    | |- _ <= _ => tally_up
    | |- @eq nat _ _ => tally_up
    | |- _ => reflexivity
    end.
Qed.

(** *** Whole runs, in calls *)

Lemma tally_nil (lint dry : bool) : tally lint dry [].
Proof. unfold tally, count; cbn. destruct lint, dry; repeat split; lia. Qed.

Lemma tally_app (lint dry : bool) (a b : list Event) :
  tally lint dry a -> tally lint dry b -> tally lint dry (a ++ b).
Proof.
  unfold tally. rewrite !count_app.
  destruct lint, dry; intros Ha Hb; decompose [and] Ha; decompose [and] Hb;
    repeat split; lia.
Qed.

Lemma ledger_nil (s : Status) (failed : bool) : ledger s s failed [].
Proof.
  exists 0, 0. unfold count; cbn. destruct failed; repeat split; lia.
Qed.

Lemma ledger_app (s s' s'' : Status) (failed : bool) (a b : list Event) :
  ledger s s' false a -> ledger s' s'' failed b ->
  ledger s s'' failed (a ++ b).
Proof.
  intros (u1 & c1 & H1 & H2 & H3 & H4) (u2 & c2 & H5 & H6 & H7 & H8).
  exists u2, c2. rewrite !count_app. repeat split; try assumption; lia.
Qed.

(** The calls of the loop over the includes of one object. *)
Lemma processIncludes_summary (includes : list AbapInclude)
  (options : Options) (w : World R) :
  let out := Main.processIncludes env abapLint includes options w in
  exists new,
    calls (fst out) = calls w ++ new
    /\ tally (Js.truthy abapLint) (test options) new
    /\ count is_expand new = 0
    /\ session (fst out) = session w
    /\ same_object (status w) (status (fst out))
    /\ ledger (status w) (status (fst out)) (is_error (snd out)) new
    /\ (is_error (snd out) = false -> count is_read new = length includes).
Proof.
  revert w. induction includes as [| incl rest IH]; intros w.
  - exists []. cbn. rewrite app_nil_r.
    split; [reflexivity |]. split; [apply tally_nil |].
    split; [reflexivity |]. split; [reflexivity |].
    split; [split; reflexivity |]. split; [apply ledger_nil | reflexivity].
  - cbn [Main.processIncludes]. unfold bind.
    destruct (processInclude_summary incl options w)
      as (n1 & Hc1 & ((Ht1 & Hr1 & Hl1 & He1) & Hs1 & (Ho1 & Hp1) & Hi1 & Hw1)).
    destruct (Main.processInclude env abapLint incl options w)
      as [w1 [e | []]]; cbn [fst snd is_error] in *.
    + exists n1.
      split; [assumption |]. split; [assumption |].
      split; [assumption |]. split; [assumption |].
      split; [split; assumption |]. split; [| discriminate].
      exists 1, (count is_unlock n1). unfold tally in Ht1.
      repeat split; lia.
    + destruct (IH w1) as (n2 & Hc2 & Ht2 & He2 & Hs2 & (Ho2 & Hp2) & Hl2 & Hn2).
      exists (n1 ++ n2). rewrite Hc2, Hc1, app_assoc, !count_app.
      split; [reflexivity |]. split; [apply tally_app; assumption |].
      split; [lia |]. split; [congruence |].
      split; [split; congruence |]. split.
      * apply (ledger_app _ (status w1)); [| assumption].
        exists 0, 0. repeat split; lia.
      * intros Hok. rewrite (Hn2 Hok), Hr1. reflexivity.
Qed.

(** The calls of the body of the object loop, for one object. *)
Lemma processObject_summary (o : AbapObject) (options : Options)
  (w : World R) :
  let out := Main.processObject env abapLint o options w in
  exists new,
    calls (fst out) = calls w ++ new
    /\ tally (Js.truthy abapLint) (test options) new
    /\ filter is_expand new = [EExpand o]
    /\ session (fst out) = session w
    /\ currentObject (status (fst out)) = Some o
    /\ processedObjects (status (fst out))
       = processedObjects (status w)
         + (if is_error (snd out) then 0 else 1)
    /\ ledger (status w) (status (fst out)) (is_error (snd out)) new.
Proof.
  unfold Main.processObject. unfold_monad.
  cbn [fst snd remote status session trace].
  destruct (expand env o (remote w)) as [[e | includes] r1];
    cbn [fst snd remote status session trace is_error].
  - eexists. split; [new_calls |].
    split; [unfold tally, count; cbn;
            destruct (Js.truthy abapLint), (test options);
            repeat split; lia |].
    split; [reflexivity |]. split; [reflexivity |].
    split; [reflexivity |]. split; [cbn; lia |].
    exists 0, 0. unfold count; cbn. repeat split; lia.
  - match goal with
    | |- context [Main.processIncludes env abapLint includes options ?w2] =>
        destruct (processIncludes_summary includes options w2)
          as (n & Hc & Ht & He & Hs & (Ho & Hp) & Hl & _);
        destruct (Main.processIncludes env abapLint includes options w2)
          as [w3 [e | []]]
    end.
    all: cbn [fst snd remote status session trace is_error currentObject
              processedObjects processedIncludes writtenIncludes] in *.
    all: eexists;
      (split;
       [ unfold calls at 1; cbn [trace]; rewrite ?map_app;
         change (map ev (trace w3)) with (calls w3); rewrite Hc;
         unfold calls; cbn [trace]; repeat rewrite <- app_assoc;
         rewrite ?map_app; repeat rewrite <- app_assoc; cbn [map ev];
         reflexivity |]).
    all: assert (Hexp : filter is_expand n = [])
      by (apply length_zero_iff_nil; exact He).
    all: split;
      [ change (tally (Js.truthy abapLint) (test options)
                  ([EActionStart (obj_type o ++ " " ++ obj_name o) None;
                    EExpand o;
                    EActionStart (tick env ++ obj_type o ++ " " ++ obj_name o)
                      None;
                    EActionStop None] ++ n));
        apply tally_app;
        [ unfold tally, count; cbn;
          destruct (Js.truthy abapLint), (test options); repeat split; lia
        | exact Ht ] |].
    all: split;
      [ cbn [filter is_expand app]; rewrite ?filter_app, Hexp; reflexivity |].
    all: split; [assumption |]. all: split; [assumption |].
    all: split; [lia |].
    all: destruct Hl as (u & c & H1 & H2 & H3 & H4); exists u, c;
      cbn [app]; unfold count in *; cbn [filter is_read is_unlock length];
      rewrite ?filter_app, ?length_app;
      cbn [filter is_read is_unlock length];
      cbn [processedIncludes writtenIncludes] in *; repeat split; lia.
Qed.

(** The calls of the object loop. *)
Lemma objectLoop_summary (objects : list AbapObject) (options : Options)
  (w : World R) :
  let out := Main.objectLoop env abapLint objects options w in
  exists new,
    calls (fst out) = calls w ++ new
    /\ tally (Js.truthy abapLint) (test options) new
    /\ session (fst out) = session w
    /\ ledger (status w) (status (fst out)) (is_error (snd out)) new
    /\ loop_progress objects (status w) (status (fst out))
         (is_error (snd out)) new.
Proof.
  revert w. induction objects as [| o rest IH]; intros w.
  - exists []. cbn. rewrite app_nil_r.
    split; [reflexivity |]. split; [apply tally_nil |].
    split; [reflexivity |]. split; [apply ledger_nil |].
    exists 0. cbn. repeat split; lia.
  - cbn [Main.objectLoop]. unfold bind.
    destruct (processObject_summary o options w)
      as (n1 & Hc1 & Ht1 & He1 & Hs1 & Ho1 & Hp1 & Hl1).
    destruct (Main.processObject env abapLint o options w)
      as [w1 [e | []]]; cbn [fst snd is_error] in *.
    + exists n1.
      split; [assumption |]. split; [assumption |].
      split; [assumption |]. split; [assumption |].
      exists 0. cbn [firstn map length nth_error].
      split; [lia |]. split; [assumption |]. split; [lia | assumption].
    + destruct (IH w1) as (n2 & Hc2 & Ht2 & Hs2 & Hl2 & (k & Hk & Hexp & Hend)).
      exists (n1 ++ n2). rewrite Hc2, Hc1, app_assoc.
      split; [reflexivity |]. split; [apply tally_app; assumption |].
      split; [congruence |].
      split; [apply (ledger_app _ (status w1)); assumption |].
      exists (S k). rewrite filter_app, He1, Hexp.
      split; [lia |].
      destruct (is_error (snd (Main.objectLoop env abapLint rest options w1))).
      * split; [reflexivity |]. cbn [length nth_error]. split; [lia | apply Hend].
      * split; [reflexivity |]. cbn [length]. lia.
Qed.

Lemma tally_parts (lint dry : bool) (new : list Event) :
  tally lint dry new ->
  lock_accounting dry new /\ formatter_choice lint new
  /\ filter is_session new = [] /\ filter is_config new = [].
Proof.
  unfold tally, lock_accounting, formatter_choice, count.
  intros H; decompose [and] H.
  repeat match goal with
    | H : length _ = 0 |- _ => apply length_zero_iff_nil in H
    end.
  destruct lint, dry; tauto.
Qed.

(** The calls of a whole run. *)
Lemma processObjects_summary (objects : list AbapObject)
  (options : Options) (w : World R) :
  let out := Main.processObjects env abapLint objects options w in
  exists new,
    calls (fst out) = calls w ++ new
    /\ lock_accounting (test options) new
    /\ formatter_choice (Js.truthy abapLint) new
    /\ ledger (status w) (status (fst out)) (is_error (snd out)) new
    /\ filter is_config new
       = (if needs_config env abapLint
          then [ELoadAbapLintConfig (Js.show abapLint)] else [])
    /\ (filter is_session new
        = [ESetSession stateful; ESetSession stateless; EDropSession]
        /\ session (fst out) = stateless
        \/ filter is_session new = []
           /\ session (fst out) = session w
           /\ status (fst out) = status w
           /\ needs_config env abapLint = true
           /\ is_error (snd out) = true).
Proof.
  unfold Main.processObjects, Main.loadConfig, Main.reportFailure,
    Main.cleanup, Main.stats, needs_config.
  unfold_monad.
  destruct (Js.truthy abapLint
            && negb (Js.strict_eq abapLint (Some (ABAPLINT_DEFAULT env))));
    cbn [fst snd remote status session trace].
  1: destruct (loadAbapLintConfig env (Js.show abapLint) (remote w))
       as [[e | []] r0]; cbn [fst snd remote status session trace is_error].
  1: { eexists. split; [new_calls |].
       unfold lock_accounting, formatter_choice, count; cbn.
       destruct (test options), (Js.truthy abapLint).
       all: split; [repeat split; lia |].
       all: split; [repeat split; lia |].
       all: split; [exists 0, 0; cbn; repeat split; lia |].
       all: split; [reflexivity | right; repeat split]. }
  all: match goal with
    | |- context [Main.objectLoop _ _ ?os ?op ?w2] =>
        destruct (objectLoop_summary os op w2)
          as (n & Hc & Ht & Hs & Hl & _);
        apply tally_parts in Ht;
        destruct Ht as (Ha & Hf & Hns & Hnc);
        destruct (Main.objectLoop env abapLint os op w2)
          as [w3 [e | []]]
    end.
  all: cbn [fst snd remote status session trace is_error] in *.
  all: try destruct (currentInclude (status w3));
    cbn [fst snd remote status session trace is_error].
  all: destruct (client_dropSession env (remote w3)) as [[e' | []] r4];
    cbn [fst snd remote status session trace is_error].
  all: eexists;
    (split;
     [ unfold calls at 1; cbn [trace]; repeat rewrite <- app_assoc;
       rewrite ?map_app; change (map ev (trace w3)) with (calls w3);
       rewrite Hc; unfold calls; cbn [trace];
       repeat rewrite <- app_assoc; rewrite ?map_app;
       repeat rewrite <- app_assoc; cbn [map ev]; reflexivity |]).
  all: destruct Hl as (u & c & H1 & H2 & H3 & H4).
  all: unfold lock_accounting, formatter_choice in *.
  all: split;
    [ destruct (test options); decompose [and] Ha; repeat split; tally_up |].
  all: split;
    [ destruct (Js.truthy abapLint); decompose [and] Hf; repeat split;
      tally_up |].
  all: split;
    [ first [exists u, c | exists 0, 0];
      cbn [processedIncludes writtenIncludes] in *;
      repeat split; tally_up |].
  all: cbn [app filter is_config is_session]; rewrite ?filter_app, Hns, Hnc.
  all: split; [reflexivity | left; split; reflexivity].
Qed.

(** X4: the object loop expands the objects in the order given, with one
    call per object, and counts an object when all its includes are done.  When
    it stops with an error, the object it was working on is the one
    recorded in [currentObject], the objects before it are the ones
    counted in [processedObjects], and no later object was expanded; when
    it returns, every object was expanded and counted. *)
Theorem objectLoop_in_order (objects : list AbapObject) (options : Options)
  (w : World R) :
  let out := Main.objectLoop env abapLint objects options w in
  exists k,
    processedObjects (status (fst out)) = processedObjects (status w) + k
    /\ filter is_expand (calls (fst out))
       = filter is_expand (calls w)
         ++ map EExpand
              (firstn (if is_error (snd out) then S k else k) objects)
    /\ if is_error (snd out)
       then k < length objects
            /\ currentObject (status (fst out)) = nth_error objects k
       else k = length objects.
Proof.
  destruct (objectLoop_summary objects options w)
    as (new & Hcalls & _ & _ & _ & (k & Hk & Hexp & Hend)).
  exists k. cbv zeta. rewrite Hcalls, filter_app, Hexp.
  split; [assumption |]. split; [reflexivity | assumption].
Qed.

(** X5: whatever the collaborators answer, the calls of a run of
    [processObjects] keep the lock discipline: every unlock and every
    remote write is matched by a lock call, every lock call by a read,
    every activation call follows an unlock (at most two per unlock); a
    dry run makes no remote write and no activation call at all, and a
    real run unlocks only what it has written. *)
Theorem run_lock_accounting (objects : list AbapObject) (options : Options)
  (w : World R) :
  let out := Main.processObjects env abapLint objects options w in
  exists new,
    calls (fst out) = calls w ++ new
    /\ lock_accounting (test options) new.
Proof.
  destruct (processObjects_summary objects options w)
    as (new & Hcalls & Ha & _).
  exists new. split; assumption.
Qed.

(** X6: the counters of the status follow the calls of the run.  When
    [processObjects] returns normally, [processedIncludes] has grown by
    the number of sources read and [writtenIncludes] by the number of
    unlock calls.  When it throws, at most one read is not counted as
    processed, and at most one unlock is not counted as written, and only
    if a read is not counted either. *)
Theorem run_counters_follow_calls (objects : list AbapObject)
  (options : Options) (w : World R) :
  let out := Main.processObjects env abapLint objects options w in
  exists new,
    calls (fst out) = calls w ++ new
    /\ ledger (status w) (status (fst out)) (is_error (snd out)) new
    /\ (is_error (snd out) = false ->
        processedIncludes (status (fst out))
        = processedIncludes (status w) + count is_read new
        /\ writtenIncludes (status (fst out))
           = writtenIncludes (status w) + count is_unlock new).
Proof.
  destruct (processObjects_summary objects options w)
    as (new & Hcalls & _ & _ & Hl & _).
  exists new. split; [assumption |]. split; [assumption |].
  intros Hok. cbv zeta in Hl. rewrite Hok in Hl.
  destruct Hl as (u & c & H1 & H2 & H3 & H4). lia.
Qed.

(** X7: a run formats every source it reads at most once, with abaplint
    when a configuration is set on the instance and with the server's
    pretty printer otherwise, never with both.  The configuration is
    loaded at most once per run, and only when it is set and differs from
    the default. *)
Theorem run_formatter_choice (objects : list AbapObject)
  (options : Options) (w : World R) :
  let out := Main.processObjects env abapLint objects options w in
  exists new,
    calls (fst out) = calls w ++ new
    /\ formatter_choice (Js.truthy abapLint) new
    /\ filter is_config new
       = (if needs_config env abapLint
          then [ELoadAbapLintConfig (Js.show abapLint)] else []).
Proof.
  destruct (processObjects_summary objects options w)
    as (new & Hcalls & _ & Hf & _ & Hc & _).
  exists new. split; [assumption |]. split; assumption.
Qed.

(** X8: the session of a run.  Either the configuration load failed:
    then the run throws without having touched the session mode or the
    status, and without a teardown.  Or the session is switched to
    stateful, switched back to stateless and dropped, each exactly once
    and in this order, nothing in between touching the session, and the
    run ends in stateless mode. *)
Theorem run_session_protocol (objects : list AbapObject)
  (options : Options) (w : World R) :
  let out := Main.processObjects env abapLint objects options w in
  exists new,
    calls (fst out) = calls w ++ new
    /\ (filter is_session new
        = [ESetSession stateful; ESetSession stateless; EDropSession]
        /\ session (fst out) = stateless
        \/ filter is_session new = []
           /\ session (fst out) = session w
           /\ status (fst out) = status w
           /\ needs_config env abapLint = true
           /\ is_error (snd out) = true).
Proof.
  destruct (processObjects_summary objects options w)
    as (new & Hcalls & _ & _ & _ & _ & Hs).
  exists new. split; assumption.
Qed.

(** *** The steps of one include *)

(** X9: [processInclude] works in a fixed order.  It reads the source
    first; a failing read is thrown on unchanged, nothing else having been
    called.  It then formats; a failing formatter is thrown on unchanged,
    nothing else having been called.  Only when the formatter returned a
    text that differs from the source does it go on, and then its next
    call is the lock of the include's source URL. *)
Theorem processInclude_steps (incl : AbapInclude) (options : Options)
  (w : World R) :
  let read := client_getObjectSource env (sourceUrl incl) (remote w) in
  let out := Main.processInclude env abapLint incl options w in
  let reading :=
    [EActionStart (TAB ++ Main.key_of incl) (Some " Reading...");
     EGetObjectSource (sourceUrl incl)] in
  match fst read with
  | inl e =>
      snd out = inl e /\ remote (fst out) = snd read
      /\ calls (fst out) = calls w ++ reading
  | inr source =>
      let fmt := Main.formatter env abapLint incl source (snd read) in
      let formatting :=
        [EActionStart (TAB ++ Main.key_of incl) (Some " Formatting...");
         format_event abapLint incl source] in
      match fst fmt with
      | inl e =>
          snd out = inl e /\ remote (fst out) = snd fmt
          /\ calls (fst out) = calls w ++ reading ++ formatting
      | inr formatted =>
          exists rest,
            calls (fst out)
            = calls w ++ reading ++ formatting
              ++ (if formatted =? source then []
                  else [EActionStart (TAB ++ Main.key_of incl)
                          (Some " Locking...");
                        ELock (sourceUrl incl)])
              ++ rest
            /\ count is_lock rest = 0 /\ count is_read rest = 0
      end
  end.
Proof.
  unfold Main.formatter, format_event.
  unfold_include. cbn [fst snd remote status session trace].
  destruct (client_getObjectSource env (sourceUrl incl) (remote w))
    as [[e | source] r1]; cbn [fst snd remote status session trace].
  { repeat split. new_calls. }
  destruct (Js.truthy abapLint); cbn [fst snd remote status session trace].
  1: destruct (abapLintprettyPrint env incl source r1) as [[e | formatted] r2].
  3: destruct (client_prettyPrinter env source r1) as [[e | formatted] r2].
  all: cbn [fst snd remote status session trace].
  1, 3: repeat split; new_calls.
  all: destruct (formatted =? source);
    cbn [fst snd remote status session trace].
  1, 3: eexists; split; [new_calls | split; reflexivity].
  all: destruct (client_lock env (sourceUrl incl) r2) as [[e | l] r3];
    cbn [fst snd remote status session trace].
  all: repeat match goal with
    | |- context [if ?c then _ else _] =>
        match type of c with
        | bool => destruct c; cbn [fst snd remote status session trace]
        end
    end.
  all: try (eexists; split; [new_calls | split; reflexivity]).
  all: match goal with
    | |- context [Main.write env ?i ?f ?l ?o ?w5] =>
        destruct (write_summary i f l o w5) as (wnew & Hcalls & Htally & _);
        unfold write_tally in Htally;
        destruct (Main.write env i f l o w5) as [w6 [e | []]];
        cbn [fst snd is_error] in Hcalls
    end.
  all: cbn [fst snd remote status session trace].
  all: eexists;
    (split;
     [ unfold calls at 1; cbn [trace]; repeat rewrite <- app_assoc;
       rewrite ?map_app; change (map ev (trace w6)) with (calls w6);
       rewrite Hcalls; unfold calls; cbn [trace];
       repeat rewrite <- app_assoc; rewrite ?map_app;
       repeat rewrite <- app_assoc; cbn [map ev app]; reflexivity |]).
  all: decompose [and] Htally; split; tally_up.
Qed.

(** *** Discovery *)

Lemma reportProgress_run (msgs : list string) (w : World R) :
  let out := Main.reportProgress msgs w in
  snd out = inr tt
  /\ status (fst out) = status w
  /\ session (fst out) = session w
  /\ remote (fst out) = remote w
  /\ calls (fst out) = calls w ++ progress_calls msgs.
Proof.
  revert w. induction msgs as [| m rest IH]; intros w.
  - cbn. rewrite app_nil_r. repeat split.
  - cbn [Main.reportProgress]. unfold_monad.
    match goal with
    | |- context [Main.reportProgress rest ?w1] =>
        destruct (IH w1) as (Hr & Hst & Hse & Hre & Hc)
    end.
    cbn [status session remote] in Hst, Hse, Hre.
    split; [exact Hr |]. split; [exact Hst |]. split; [exact Hse |].
    split; [exact Hre |]. rewrite Hc. unfold calls; cbn [trace].
    rewrite map_app, <- app_assoc. reflexivity.
Qed.

(** X10: [list] checks its arguments before it touches anything.  Given
    a file together with a name or a type, and given no file while the
    name or the type is missing, it throws the corresponding usage error
    and the file is not read and the query is not made.  In every other
    case its first call is the one collaborator call it makes: the read of
    the file when a file is given, the query otherwise; whatever follows
    is console output. *)
Theorem list_checks_usage_first (type name : string) (options : ListOptions)
  (w : World R) :
  let out := Main.list env type name options w in
  let given := Js.truthy (file options) in
  let both := (Main.nonempty name || Main.nonempty type) && given in
  let neither :=
    negb given && (negb (Main.nonempty name) || negb (Main.nonempty type)) in
  if both || neither then
    fst out = w
    /\ snd out
       = inl (CLIError
                (if both
                 then "Can't specify an object name or type and a list file at the same time"
                 else "Object type and name required unless a list file is provided"))
  else
    exists rest,
      calls (fst out)
      = calls w
        ++ (if given then EReadFile (Js.show (file options))
            else EListQuery type name (recursive options))
        :: rest
      /\ forallb is_console rest = true.
Proof.
  unfold Main.list. unfold_monad.
  destruct (Js.truthy (file options)), (Main.nonempty name),
    (Main.nonempty type); cbn [andb orb negb fst snd].
  1, 2, 3, 6, 7, 8: split; reflexivity.
  - destruct (readFileSync env (Js.show (file options)) (remote w))
      as [[e | text] r1]; cbn [fst snd remote status session trace].
    + exists []. split; [new_calls | reflexivity].
    + exists []. split; [| reflexivity].
      destruct (Main.parseManifest env (Js.show (file options)) text);
        new_calls.
  - cbn [remote status session trace].
    destruct (list_query env type name (recursive options) (remote w))
      as [[msgs r] rem].
    match goal with
    | |- context [Main.reportProgress msgs ?w1] =>
        destruct (reportProgress_run msgs w1) as (Hr & _ & _ & _ & Hc);
        destruct (Main.reportProgress msgs w1) as [w2 r2]
    end.
    cbn [fst snd] in Hr, Hc. subst r2. cbn [fst snd].
    destruct r as [e | objects]; cbn [fst snd remote status session trace].
    + exists (progress_calls msgs). rewrite Hc.
      split; [unfold calls; cbn [trace]; rewrite map_app, <- app_assoc;
              reflexivity |].
      unfold progress_calls. clear. induction msgs; [reflexivity | assumption].
    + exists (progress_calls msgs ++ [EActionStop (Some "Done")]).
      unfold calls at 1; cbn [trace]. rewrite map_app.
      change (map ev (trace w2)) with (calls w2). rewrite Hc.
      split; [unfold calls; cbn [trace]; rewrite map_app, <- !app_assoc;
              reflexivity |].
      rewrite forallb_app. apply andb_true_intro. split; [| reflexivity].
      unfold progress_calls. clear. induction msgs; [reflexivity | assumption].
Qed.

(** X11: in query mode, that is without a file and with a type and a
    name, [list] makes the discovery query with its arguments and the
    recursive option, starts one console action for each progress message
    of the query, in order, and returns the outcome of the query: the
    objects found, after stopping the action with "Done", or the error of
    the query, the action being left as it is. *)
Theorem list_query_mode (type name : string) (options : ListOptions)
  (w : World R)
  (Hfile : Js.truthy (file options) = false)
  (Htype : type <> EmptyString) (Hname : name <> EmptyString) :
  let out := Main.list env type name options w in
  let rec := recursive options in
  let answer := list_query env type name rec (remote w) in
  snd out = snd (fst answer)
  /\ remote (fst out) = snd answer
  /\ status (fst out) = status w
  /\ calls (fst out)
     = calls w ++ [EListQuery type name rec]
       ++ progress_calls (fst (fst answer))
       ++ (if is_error (snd (fst answer)) then []
           else [EActionStop (Some "Done")]).
Proof.
  unfold Main.list, Main.nonempty. unfold_monad. rewrite Hfile.
  apply String.eqb_neq in Htype, Hname. rewrite Htype, Hname.
  cbn [andb orb negb fst snd remote status session trace].
  destruct (list_query env type name (recursive options) (remote w))
    as [[msgs r] rem].
  match goal with
  | |- context [Main.reportProgress msgs ?w1] =>
      destruct (reportProgress_run msgs w1) as (Hr & Hst & _ & Hre & Hc);
      destruct (Main.reportProgress msgs w1) as [w2 r2]
  end.
  cbn [fst snd status remote] in Hr, Hc, Hst, Hre. subst r2. cbn [fst snd].
  destruct r as [e | objects];
    cbn [fst snd remote status session trace is_error].
  - rewrite Hc, app_nil_r. repeat split; try assumption.
    unfold calls; cbn [trace]. rewrite map_app, <- app_assoc. reflexivity.
  - repeat split; try assumption.
    unfold calls at 1; cbn [trace]. rewrite map_app.
    change (map ev (trace w2)) with (calls w2). rewrite Hc.
    unfold calls; cbn [trace]. rewrite map_app, <- !app_assoc. reflexivity.
Qed.

(** *** The manifest *)

Lemma split_on_trailing (text : string) :
  Js.to_list (Js.split_on LF (text ++ NL))
  = Js.to_list (Js.split_on LF text) ++ [EmptyString].
Proof.
  induction text as [| c text IH].
  - reflexivity.
  - cbn [String.append Js.split_on].
    destruct (Js.split_on LF (text ++ NL)) as [p ps].
    destruct (Js.split_on LF text) as [q qs].
    unfold Js.to_list in *. cbn [fst snd] in *.
    destruct (Ascii.eqb c LF); cbn [fst snd app].
    + rewrite IH. reflexivity.
    + injection IH as -> ->. reflexivity.
Qed.

Lemma filter_from_trailing (i : nat) (lines : list string) :
  Js.filter_from Main.keepLine i (lines ++ [EmptyString])
  = Js.filter_from Main.keepLine i lines.
Proof.
  revert i. induction lines as [| l rest IH]; intros i.
  - reflexivity.
  - change ((l :: rest) ++ [EmptyString]) with (l :: (rest ++ [EmptyString])).
    change (Js.filter_from Main.keepLine i (l :: (rest ++ [EmptyString])))
      with (if Main.keepLine l i
            then l :: Js.filter_from Main.keepLine (S i)
                        (rest ++ [EmptyString])
            else Js.filter_from Main.keepLine (S i) (rest ++ [EmptyString])).
    rewrite IH. reflexivity.
Qed.

(** X12: a newline at the end of the manifest makes no difference: the
    empty last line it produces is dropped before the rows are parsed and
    numbered, so the file with and without it give the same objects or
    the same error. *)
Theorem manifest_trailing_newline (path text : string) :
  Main.parseManifest env path (text ++ NL)
  = Main.parseManifest env path text.
Proof.
  unfold Main.parseManifest.
  rewrite split_on_trailing, filter_from_trailing. reflexivity.
Qed.

Lemma split_ws_blank (s : string) :
  blank s = true -> Js.split_ws_from true s = (EmptyString, []).
Proof.
  induction s as [| c s IH]; cbn [blank Js.split_ws_from]; [reflexivity |].
  intros H. apply andb_true_iff in H as [Hc Hs]. rewrite Hc. exact (IH Hs).
Qed.

(** X13: a line that is not empty but holds white space only (a blank
    line of a file with CRLF line ends, for one) is not skipped when it is
    not the first line, and fails the load: its type is the empty string
    and it has no url, so its row throws, while an empty line is
    skipped. *)
Theorem manifest_blank_line_throws (path l : string) (i : nat)
  (Hblank : blank l = true) (Hline : l <> EmptyString) :
  Main.keepLine l (S i) = true
  /\ Main.keepLine EmptyString (S i) = false
  /\ is_error (Main.parseRow env path (S i) (Js.split_ws3 l)) = true.
Proof.
  split; [| split; [reflexivity |]].
  - unfold Main.keepLine, Main.isHeader. cbn [Nat.eqb andb negb].
    apply String.eqb_neq in Hline. rewrite Hline. reflexivity.
  - destruct l as [| c l]; [congruence |].
    cbn [blank] in Hblank. apply andb_true_iff in Hblank as [Hc Hl].
    unfold Js.split_ws3. cbn [Js.split_ws_from]. rewrite Hc.
    rewrite (split_ws_blank l Hl). cbn [Js.to_list fst snd firstn].
    unfold Main.parseRow.
    destruct (supportedType env EmptyString); reflexivity.
Qed.

Lemma split_ws_field_then (s rest : string) (c : ascii) (in_ws : bool) :
  is_field s = true -> Js.is_space c = true ->
  Js.split_ws_from in_ws (s ++ String c rest)
  = (s, Js.to_list (Js.split_ws_from true rest)).
Proof.
  intros Hs Hc. unfold is_field in Hs. destruct s as [| d s]; [discriminate |].
  cbn [Main.nonempty String.eqb negb andb] in Hs.
  assert (Hword : forall t, no_space t = true ->
                    Js.split_ws_from false (t ++ String c rest)
                    = (t, Js.to_list (Js.split_ws_from true rest))).
  { induction t as [| a t IH].
    - intros _. cbn [String.append Js.split_ws_from]. rewrite Hc.
      reflexivity.
    - cbn [no_space String.append Js.split_ws_from]. intros H.
      apply andb_true_iff in H as [Ha Ht]. apply negb_true_iff in Ha.
      rewrite Ha, (IH Ht). reflexivity. }
  cbn [no_space] in Hs. apply andb_true_iff in Hs as [Hd Hs].
  apply negb_true_iff in Hd.
  cbn [String.append Js.split_ws_from]. rewrite Hd.
  rewrite (Hword s Hs). reflexivity.
Qed.

(** X14: a row is read up to its third field: white space after the url
    and whatever follows it on the line (a carriage return, a comment,
    further columns) does not change the object or the error the row
    gives. *)
Theorem manifest_row_trailing_text (path type name url more : string)
  (i : nat) (c : ascii)
  (Htype : is_field type = true) (Hname : is_field name = true)
  (Hurl : is_field url = true) (Hspace : Js.is_space c = true) :
  Main.parseRow env path i
    (Js.split_ws3 (row_text type name url ++ String c more))
  = Main.parseRow env path i (Js.split_ws3 (row_text type name url))
  /\ Js.split_ws3 (row_text type name url ++ String c more)
     = (type, [name; url]).
Proof.
  assert (H : Js.split_ws3 (row_text type name url ++ String c more)
              = (type, [name; url])).
  { unfold Js.split_ws3, row_text.
    rewrite !string_app_assoc.
    rewrite (split_ws_field type _ false Htype).
    rewrite (split_ws_field name _ true Hname).
    rewrite (split_ws_field_then url more c true Hurl Hspace).
    destruct (Js.split_ws_from true more). reflexivity. }
  rewrite H, (split_ws3_fields type name url Htype Hname Hurl).
  split; reflexivity.
Qed.

Lemma parseRows_descriptors (path : string) (objects : list AbapObject)
  (i : nat) :
  forallb (listable env) objects = true ->
  Main.parseRows env path i
    (map Js.split_ws3 (map descriptor_line objects))
  = inr objects
  /\ forallb no_newline (map descriptor_line objects) = true
  /\ filter Main.nonempty (map descriptor_line objects)
     = map descriptor_line objects.
Proof.
  revert i. induction objects as [| o rest IH]; intros i H.
  - repeat split.
  - cbn [forallb] in H. apply andb_true_iff in H as [Ho Hrest].
    destruct (IH (S i) Hrest) as (Hrows & Hlines & Hkept).
    unfold listable in Ho. destruct o as [type name [url |]];
      cbn [obj_type obj_name obj_url] in Ho;
      [| rewrite andb_false_r in Ho; discriminate Ho].
    apply andb_true_iff in Ho as [Ho Hu]. apply andb_true_iff in Ho as [Ho Hn].
    apply andb_true_iff in Ho as [Hs Ht].
    destruct (row_text_line type name url Ht Hn Hu) as [Hline Hfull].
    cbn [map forallb filter Main.parseRows].
    change (descriptor_line
              {| obj_type := type; obj_name := name; obj_url := Some url |})
      with (row_text type name url).
    rewrite (split_ws3_fields type name url Ht Hn Hu), Hline, Hfull, Hkept.
    rewrite Hrows. unfold Main.parseRow. rewrite Hs. cbn [negb].
    unfold is_field, Main.nonempty in Hu.
    apply andb_true_iff in Hu as [Hu _]. apply negb_true_iff in Hu.
    rewrite Hu. repeat split; try assumption.
Qed.

(** X18: a manifest written from a list of objects reads back as that
    list.  The text made of a header line without path separator and one
    line per object, holding its type, name and url separated by a space,
    parses to exactly the objects it was written from, in order, provided
    each has a supported type and a type, name and url that are non-empty
    words. *)
Theorem manifest_round_trip (path header : string)
  (objects : list AbapObject)
  (Hheader : no_newline header = true)
  (Hnopath : Js.contains_char SLASH header = false)
  (Hobjects : forallb (listable env) objects = true) :
  Main.parseManifest env path
    (join_lines (header :: map descriptor_line objects))
  = inr objects.
Proof.
  destruct (parseRows_descriptors path objects 0 Hobjects)
    as (Hrows & Hlines & Hkept).
  unfold Main.parseManifest.
  rewrite split_on_join_lines
    by (cbn [forallb]; rewrite Hheader, Hlines; reflexivity).
  rewrite filter_from_data_lines. cbn [data_lines].
  rewrite Hnopath, Hkept. exact Hrows.
Qed.

End Properties.

(** ** The commands *)

Section CommandProperties.

Context {R : Type}.
Variable env : Env R.
Variable shell : Shell R.

Ltac unfold_steps :=
  unfold bind, try_catch, cli_action_stop, emit, lift, ret, modify_status,
    observe; cbn zeta.

(** What [run] does up to the end of the discovery query. *)
Lemma discover_run (type name : string) (rec : bool) (w : World R) :
  let out := Commands.discover env type name rec w in
  let answer := list_query env type name rec (remote w) in
  snd out = snd (fst answer)
  /\ remote (fst out) = snd answer
  /\ status (fst out) = status w
  /\ session (fst out) = session w
  /\ calls (fst out)
     = calls w ++ [EListQuery type name rec]
       ++ progress_calls (fst (fst answer)).
Proof.
  unfold Commands.discover. unfold_steps.
  destruct (list_query env type name rec (remote w)) as [[msgs r] rem].
  match goal with
  | |- context [Main.reportProgress msgs ?w1] =>
      destruct (reportProgress_run msgs w1) as (Hr & Hst & Hse & Hre & Hc);
      destruct (Main.reportProgress msgs w1) as [w2 r2]
  end.
  cbn [fst snd status session remote] in *. subst r2.
  destruct r; cbn [fst snd]; repeat split; try assumption.
  all: rewrite Hc; unfold calls; cbn [trace];
    rewrite map_app, <- app_assoc; reflexivity.
Qed.

(** The three ways the [try] statement of [Pretty.run] can go. *)
Lemma Pretty_try_cases (args : Args) (flags : Flags) (w : World R) :
  let out := Commands.Pretty_try env shell args flags w in
  let type := Commands.or_empty (objectType args) in
  let name := Commands.or_empty (objectName args) in
  let rec := flag_recursive flags in
  let client := getClient shell flags (remote w) in
  let answer := list_query env type name rec (snd client) in
  let query := EListQuery type name rec :: progress_calls (fst (fst answer)) in
  match fst client with
  | inl e =>
      snd out = inr [PLine (error_toString shell e)]
      /\ calls (fst out) = calls w /\ status (fst out) = status w
      /\ session (fst out) = session w
  | inr _ =>
      match snd (fst answer) with
      | inl e =>
          snd out = inr [PLine (error_toString shell e)]
          /\ calls (fst out) = calls w ++ query
          /\ session (fst out) = session w
          /\ remote (fst out) = snd answer
      | inr objects =>
          exists w1,
            calls w1 = calls w ++ query ++ [EActionStop (Some "Done")]
            /\ status w1 = initial_status
            /\ remote w1 = snd answer
            /\ let run :=
                 Main.processObjects env None objects
                   {| test := false; transport := flag_transport flags |} w1
               in
               fst out = fst run
               /\ snd out
                  = inr match snd run with
                        | inl e => [PLine (error_toString shell e)]
                        | inr _ => []
                        end
      end
  end.
Proof.
  unfold Commands.Pretty_try, Commands.connect, Commands.new_Main.
  unfold_steps. cbn [fst snd remote status session trace].
  destruct (getClient shell flags (remote w)) as [[e | []] r0];
    cbn [fst snd remote status session trace].
  - repeat split.
  - match goal with
    | |- context [Commands.discover env ?t ?n ?b ?w0] =>
        destruct (discover_run t n b w0) as (Hr & Hre & Hst & Hse & Hc);
        destruct (Commands.discover env t n b w0) as [w1 r1]
    end.
    cbn [fst snd remote status session trace] in *. subst r1.
    destruct (list_query env _ _ _ r0) as [[msgs [e | objects]] rem];
      cbn [fst snd] in *.
    + repeat split; assumption.
    + cbn [fst snd remote status session trace].
      match goal with
      | |- context [Main.processObjects env None objects ?o ?w2] =>
          exists w2; destruct (Main.processObjects env None objects o w2)
            as [w3 [e | []]]
      end.
      all: cbn [fst snd remote status session trace].
      all: split;
        [ unfold calls at 1; cbn [trace]; rewrite map_app;
          change (map ev (trace w1)) with (calls w1); rewrite Hc;
          rewrite <- !app_assoc; reflexivity |].
      all: repeat split; assumption.
Qed.

(** X15: [Pretty.run] throws only what [this.parse], its first statement,
    throws: then nothing is called and nothing is printed.  Once the
    command line is parsed it does not throw: an error of [getClient], of
    the discovery query or of [processObjects] ends the command with one
    printed line, the text of that error, and a run without error prints
    nothing itself.  When [getClient] fails nothing is called; when the
    query fails no object is processed: the session is not switched and
    the action is not stopped with "Done".  Otherwise the objects found
    are processed from a fresh status, as a real run with the transport
    of the flags. *)
Theorem Pretty_run_outcome (argv : list string) (w : World R) :
  let out := Commands.Pretty_run env shell argv w in
  match parse_Pretty shell argv with
  | inl thrown => out = (w, inl thrown)
  | inr (args, flags) =>
      let type := Commands.or_empty (objectType args) in
      let name := Commands.or_empty (objectName args) in
      let rec := flag_recursive flags in
      let client := getClient shell flags (remote w) in
      let answer := list_query env type name rec (snd client) in
      let query :=
        EListQuery type name rec :: progress_calls (fst (fst answer)) in
      match fst client with
      | inl e =>
          snd out = inr [PLine (error_toString shell e)]
          /\ calls (fst out) = calls w /\ status (fst out) = status w
          /\ session (fst out) = session w
      | inr _ =>
          match snd (fst answer) with
          | inl e =>
              snd out = inr [PLine (error_toString shell e)]
              /\ calls (fst out) = calls w ++ query
              /\ session (fst out) = session w
              /\ remote (fst out) = snd answer
          | inr objects =>
              exists w1,
                calls w1 = calls w ++ query ++ [EActionStop (Some "Done")]
                /\ status w1 = initial_status
                /\ remote w1 = snd answer
                /\ let run :=
                     Main.processObjects env None objects
                       {| test := false; transport := flag_transport flags |}
                       w1
                   in
                   fst out = fst run
                   /\ snd out
                      = inr match snd run with
                            | inl e => [PLine (error_toString shell e)]
                            | inr _ => []
                            end
          end
      end
  end.
Proof.
  unfold Commands.Pretty_run, bind, lift.
  destruct (parse_Pretty shell argv) as [thrown | [args flags]];
    cbn [fst snd].
  - reflexivity.
  - exact (Pretty_try_cases args flags w).
Qed.

Lemma progress_is_discovery (msgs : list string) :
  forallb is_discovery (progress_calls msgs) = true.
Proof. induction msgs; [reflexivity | assumption]. Qed.

Lemma count_discovery (p : Event -> bool) (l : list Event) :
  (forall e, is_discovery e = true -> p e = false) ->
  forallb is_discovery l = true -> filter p l = [].
Proof.
  intros Hp. induction l as [| e l IH]; [reflexivity |].
  cbn [forallb filter]. intros H. apply andb_true_iff in H as [He Hl].
  rewrite (Hp e He). exact (IH Hl).
Qed.

Ltac discovery_counts Hpre :=
  unfold count; rewrite !filter_app;
  repeat match goal with
    | |- context [filter ?p ?pre] =>
        lazymatch type of Hpre with
        | forallb is_discovery pre = true =>
            rewrite (count_discovery p pre
                       ltac:(intros []; intros H; first [discriminate H | reflexivity])
                       Hpre)
        end
    end;
  cbn [app length].

(** Calls of the discovery step in front of a stretch of a run leave its
    accounting as it is. *)
Lemma accounting_after_discovery (dry : bool) (pre new : list Event) :
  forallb is_discovery pre = true ->
  lock_accounting dry new /\ formatter_choice false new
  /\ filter is_config new = [] ->
  lock_accounting dry (pre ++ new) /\ formatter_choice false (pre ++ new)
  /\ filter is_config (pre ++ new) = [].
Proof.
  intros Hpre. unfold lock_accounting, formatter_choice.
  discovery_counts Hpre. tauto.
Qed.

(** The calls of the [try] statement of [Pretty.run]. *)
Lemma Pretty_try_is_a_real_run (args : Args) (flags : Flags)
  (w : World R) :
  let out := Commands.Pretty_try env shell args flags w in
  exists new,
    calls (fst out) = calls w ++ new
    /\ lock_accounting false new
    /\ formatter_choice false new
    /\ filter is_config new = []
    /\ is_error (snd out) = false.
Proof.
  pose proof (Pretty_try_cases args flags w) as H. cbv zeta in *.
  assert (Hnil : lock_accounting false [] /\ formatter_choice false []
                 /\ filter is_config [] = [])
    by (unfold lock_accounting, formatter_choice, count; cbn;
        repeat split; lia).
  destruct (fst (getClient shell flags (remote w))) as [e | []].
  - destruct H as (Hout & Hcalls & _). exists [].
    rewrite app_nil_r, Hout. split; [assumption |].
    split; [apply Hnil |]. split; [apply Hnil |]. split; [apply Hnil |].
    reflexivity.
  - match type of H with
    | match snd (fst ?a) with _ => _ end =>
        set (answer := a) in *;
        assert (Hpre : forall t n b tail,
                  forallb is_discovery tail = true ->
                  forallb is_discovery
                    ((EListQuery t n b :: progress_calls (fst (fst answer)))
                     ++ tail) = true)
          by (intros t n b tail Htail; rewrite forallb_app, Htail;
              cbn [forallb is_discovery];
              rewrite progress_is_discovery; reflexivity);
        destruct (snd (fst answer)) as [e | objects]
    end.
    + destruct H as (Hout & Hcalls & _). eexists.
      split; [exact Hcalls |]. rewrite Hout.
      specialize (Hpre (Commands.or_empty (objectType args))
                    (Commands.or_empty (objectName args))
                    (flag_recursive flags) [] eq_refl).
      rewrite app_nil_r in Hpre.
      pose proof (accounting_after_discovery false _ [] Hpre Hnil) as Hacc.
      rewrite app_nil_r in Hacc.
      split; [apply Hacc |]. split; [apply Hacc |]. split; [apply Hacc |].
      reflexivity.
    + destruct H as (w1 & Hc1 & _ & _ & Hfst & Hsnd).
      destruct (processObjects_summary env None objects
                  {| test := false; transport := flag_transport flags |} w1)
        as (new & Hcalls & Ha & Hf & _ & Hcfg & _).
      cbn [test Js.truthy needs_config andb] in Ha, Hf, Hcfg.
      specialize (Hpre (Commands.or_empty (objectType args))
                    (Commands.or_empty (objectName args))
                    (flag_recursive flags) [EActionStop (Some "Done")]
                    eq_refl).
      pose proof (accounting_after_discovery false _ new Hpre
                    (conj Ha (conj Hf Hcfg))) as Hacc.
      eexists. rewrite Hfst, Hcalls, Hc1, Hsnd.
      split; [rewrite <- !app_assoc; reflexivity |].
      rewrite <- !app_assoc in Hacc. cbn [app] in Hacc |- *.
      split; [apply Hacc |]. split; [apply Hacc |]. split; [apply Hacc |].
      reflexivity.
Qed.

(** X16: the [prettyprint] command formats for real and with the
    server's pretty printer only.  Whatever the command line and whatever
    the collaborators answer, its calls keep the lock discipline of a real
    run (what is unlocked was written), it never calls abaplint and never
    loads an abaplint configuration; and it throws exactly when
    [this.parse] throws, in which case it has called nothing. *)
Theorem Pretty_run_is_a_real_run (argv : list string) (w : World R) :
  let out := Commands.Pretty_run env shell argv w in
  exists new,
    calls (fst out) = calls w ++ new
    /\ lock_accounting false new
    /\ formatter_choice false new
    /\ filter is_config new = []
    /\ is_error (snd out) = is_error (parse_Pretty shell argv)
    /\ (is_error (snd out) = true -> new = []).
Proof.
  unfold Commands.Pretty_run, bind, lift.
  destruct (parse_Pretty shell argv) as [thrown | [args flags]];
    cbn [fst snd is_error].
  - exists []. rewrite app_nil_r.
    unfold lock_accounting, formatter_choice, count; cbn.
    repeat split; lia.
  - destruct (Pretty_try_is_a_real_run args flags w)
      as (new & Hcalls & Ha & Hf & Hc & Hok).
    exists new. rewrite Hok.
    split; [assumption |]. split; [assumption |]. split; [assumption |].
    split; [assumption |]. split; [reflexivity | discriminate].
Qed.

(** The ways the [try] statement of [List.run] can go. *)
Lemma List_try_cases (args : Args) (flags : Flags) (w : World R) :
  let out := Commands.List_try env shell args flags w in
  let type := Commands.or_empty (objectType args) in
  let name := Commands.or_empty (objectName args) in
  let rec := flag_recursive flags in
  let client := getClient shell flags (remote w) in
  let answer := list_query env type name rec (snd client) in
  status (fst out) = status w
  /\ session (fst out) = session w
  /\ match fst client with
     | inl e =>
         snd out = inr [PLine (error_toString shell e)]
         /\ calls (fst out) = calls w
         /\ remote (fst out) = snd client
     | inr _ =>
         snd out
         = inr [match snd (fst answer) with
                | inl e => PLine (error_toString shell e)
                | inr objects => PTable objects
                end]
         /\ calls (fst out)
            = calls w ++ EListQuery type name rec
              :: progress_calls (fst (fst answer))
              ++ (if is_error (snd (fst answer)) then []
                  else [EActionStop (Some "Done")])
         /\ remote (fst out) = snd answer
     end.
Proof.
  unfold Commands.List_try, Commands.connect.
  unfold_steps. cbn [fst snd remote status session trace].
  destruct (getClient shell flags (remote w)) as [[e | []] r0];
    cbn [fst snd remote status session trace].
  - repeat split.
  - match goal with
    | |- context [Commands.discover env ?t ?n ?b ?w0] =>
        destruct (discover_run t n b w0) as (Hr & Hre & Hst & Hse & Hc);
        destruct (Commands.discover env t n b w0) as [w1 r1]
    end.
    cbn [fst snd remote status session trace] in *. subst r1.
    destruct (list_query env _ _ _ r0) as [[msgs [e | objects]] rem];
      cbn [fst snd remote status session trace is_error] in *.
    + rewrite app_nil_r. repeat split; assumption.
    + repeat split; try assumption.
      unfold calls at 1; cbn [trace]. rewrite map_app.
      change (map ev (trace w1)) with (calls w1). rewrite Hc.
      rewrite <- !app_assoc. reflexivity.
Qed.

(** X17: the [list] command makes no call but the discovery query.  It
    throws only what [this.parse], its first statement, throws: then
    nothing is called and nothing is printed.  Once the command line is
    parsed it does not throw: a failing [getClient] or a failing query
    ends it with one printed line, the text of the error; otherwise it
    starts one console action for each progress message, stops the action
    with "Done" and prints the table of the objects found.  It leaves the
    status and the session mode alone. *)
Theorem List_run_outcome (argv : list string) (w : World R) :
  let out := Commands.List_run env shell argv w in
  status (fst out) = status w
  /\ session (fst out) = session w
  /\ match parse_List shell argv with
     | inl thrown => out = (w, inl thrown)
     | inr (args, flags) =>
         let type := Commands.or_empty (objectType args) in
         let name := Commands.or_empty (objectName args) in
         let rec := flag_recursive flags in
         let client := getClient shell flags (remote w) in
         let answer := list_query env type name rec (snd client) in
         match fst client with
         | inl e =>
             snd out = inr [PLine (error_toString shell e)]
             /\ calls (fst out) = calls w
             /\ remote (fst out) = snd client
         | inr _ =>
             snd out
             = inr [match snd (fst answer) with
                    | inl e => PLine (error_toString shell e)
                    | inr objects => PTable objects
                    end]
             /\ calls (fst out)
                = calls w ++ EListQuery type name rec
                  :: progress_calls (fst (fst answer))
                  ++ (if is_error (snd (fst answer)) then []
                      else [EActionStop (Some "Done")])
             /\ remote (fst out) = snd answer
         end
     end.
Proof.
  unfold Commands.List_run, bind, lift.
  destruct (parse_List shell argv) as [thrown | [args flags]];
    cbn [fst snd].
  - repeat split.
  - exact (List_try_cases args flags w).
Qed.

End CommandProperties.

(** ** The methods on explicit inputs *)

Example split_ws_row :
  Js.split_ws3 "PROG/P ZFOO  /sap/x ignored" = ("PROG/P", ["ZFOO"; "/sap/x"]).
Proof. reflexivity. Qed.

Example split_ws_edges :
  Js.split_ws3 " a" = (EmptyString, ["a"]) /\
  Js.split_ws3 "a " = ("a", [EmptyString]) /\
  Js.split_ws3 EmptyString = (EmptyString, []) /\
  Js.split_ws3 " " = (EmptyString, [EmptyString]).
Proof. repeat split. Qed.

Example match_ci_locked :
  Js.match_ci "locked" "Object is LOCKED by user X" = true /\
  Js.match_ci "locked" "No authorization for lock" = false.
Proof. split; reflexivity. Qed.

Example show_number_12 :
  Js.show_number 12 = "12" /\ Js.show_number 0 = "0".
Proof. split; reflexivity. Qed.

(** The end-to-end scenario of the specification: include A changes and
    is written, include B is unchanged. *)
Example end_to_end :
  let out := Main.processObjects endToEnd None [zpkg] realRun
               (fresh stateless tt) in
  snd out = inr tt
  /\ collaborator_calls (calls (fst out))
     = [EExpand zpkg;
        EGetObjectSource (sourceUrl zfoo);
        EPrettyPrinter source;
        ELock (sourceUrl zfoo);
        ESetObjectSource (sourceUrl zfoo) formatted (Some "HANDLE") None;
        EUnLock (sourceUrl zfoo) (Some "HANDLE");
        EActivate "ZFOO" (sourceUrl zfoo) None;
        EGetObjectSource (sourceUrl zbar);
        EPrettyPrinter "REPORT zbar.";
        EDropSession]
  /\ processedObjects (status (fst out)) = 1
  /\ processedIncludes (status (fst out)) = 2
  /\ writtenIncludes (status (fst out)) = 1
  /\ last (calls (fst out)) EDropSession = EDropSession
  /\ In (ELog (NL ++ "1 of 1 objects / 2 includes processed 1 written" ++ NL))
        (calls (fst out)).
Proof. vm_compute. repeat split. auto 40. Qed.

(** Two runs over a remote that keeps what is written: the first run
    writes both includes, the second finds them formatted and locks,
    writes, unlocks and activates nothing. *)
Example second_run_is_quiet :
  let first := Main.processObjects stored None [zpkg] realRun
                 (fresh stateless unformatted) in
  let second := Main.processObjects stored None [zpkg] realRun
                  (fresh stateless (remote (fst first))) in
  snd first = inr tt
  /\ count is_mutating (calls (fst first)) = 8
  /\ writtenIncludes (status (fst first)) = 2
  /\ snd second = inr tt
  /\ count is_mutating (calls (fst second)) = 0
  /\ writtenIncludes (status (fst second)) = 0
  /\ processedIncludes (status (fst second)) = 2.
Proof. vm_compute. repeat split. Qed.

(** ** Witnesses and counterexamples *)

(** C1 fails as stated: when the remote write throws, [write] throws
    without any unlock call, and the run that locked the include ends
    without having unlocked it. *)
Lemma write_failure_no_unlock :
  (let out := Main.write writeFails zfoo formatted localLock realRun
                (fresh stateless tt) in
   snd out = inl writeError
   /\ collaborator_calls (calls (fst out))
      = [ESetObjectSource (sourceUrl zfoo) formatted (Some "HANDLE") None]
   /\ count is_unlock (calls (fst out)) = 0)
  /\ (let run := Main.processObjects writeFails None [zpkg] realRun
                   (fresh stateless tt) in
      snd run = inl writeError
      /\ count is_lock (calls (fst run)) = 1
      /\ count is_unlock (calls (fst run)) = 0).
Proof. vm_compute. repeat split. Qed.

Example dry_run_unlocks :
  let out := Main.write allGood zfoo formatted localLock dryRun
               (fresh stateless tt) in
  collaborator_calls (calls (fst out))
  = [EUnLock (sourceUrl zfoo) (Some "HANDLE")].
Proof. reflexivity. Qed.

Lemma lock_refusal_classification_witness :
  (client_getObjectSource generated (sourceUrl zfoo) tt = (inr source, tt)
   /\ Main.formatter generated None zfoo source tt = (inr formatted, tt)
   /\ (formatted =? source) = false)
  /\ (let out := Main.processInclude generated None zfoo realRun
                   (fresh stateless tt) in
      snd (Main.tryLock generated (sourceUrl zfoo) (fresh stateless tt))
      = inr None
      /\ snd out = inr tt
      /\ writtenIncludes (status (fst out)) = 0
      /\ processedIncludes (status (fst out)) = 1
      /\ collaborator_calls (calls (fst out))
         = [EGetObjectSource (sourceUrl zfoo); EPrettyPrinter source;
            ELock (sourceUrl zfoo)])
  /\ (let out := Main.processInclude contended None zfoo realRun
                   (fresh stateless tt) in
      snd (Main.tryLock contended (sourceUrl zfoo) (fresh stateless tt))
      = inl lockedByOther
      /\ snd out = inl lockedByOther
      /\ writtenIncludes (status (fst out)) = 0).
Proof.
  split; [repeat split |]. split.
  - exact (lock_refusal_classification generated None zfoo realRun
             (fresh stateless tt) source formatted tt tt
             (sourceUrl zfoo) (fresh stateless tt)
             eq_refl eq_refl eq_refl).
  - exact (lock_refusal_classification contended None zfoo realRun
             (fresh stateless tt) source formatted tt tt
             (sourceUrl zfoo) (fresh stateless tt)
             eq_refl eq_refl eq_refl).
Defined.

(** The grid of transport validation on explicit locks: local, remote
    without tracking id, remote with tracking id K900001. *)
Example transport_grid :
  let remoteLock :=
    {| LOCK_HANDLE := Some "HANDLE"; CORRNR := None; IS_LOCAL := false |} in
  let raises lock t := is_error (Main.validateTransport lock "PROG/P ZFOO" t)
  in
  raises localLock (Some "K900001") = true
  /\ raises localLock None = false
  /\ raises remoteLock (Some "K900001") = false
  /\ raises remoteLock None = true
  /\ raises transportLock (Some "K900002") = true
  /\ raises transportLock (Some "K900001") = false
  /\ raises transportLock None = true
  /\ Main.validateTransport transportLock "PROG/P ZFOO" (Some "K900002")
     = inl (CLIError
         "Object PROG/P ZFOO locked in transport K900001 can't use K900002").
Proof. repeat split. Qed.

Lemma processInclude_unchanged_witness :
  (client_getObjectSource unchanged (sourceUrl zfoo) tt = (inr source, tt)
   /\ Main.formatter unchanged None zfoo source tt = (inr source, tt))
  /\ (let out := Main.processInclude unchanged None zfoo realRun
                   (fresh stateless tt) in
      snd out = inr tt
      /\ collaborator_calls (calls (fst out))
         = [EGetObjectSource (sourceUrl zfoo); EPrettyPrinter source]
      /\ filter is_mutating (calls (fst out)) = []
      /\ writtenIncludes (status (fst out)) = 0
      /\ processedIncludes (status (fst out)) = 1
      /\ currentInclude (status (fst out)) = None).
Proof.
  split; [repeat split |].
  exact (processInclude_unchanged unchanged None zfoo realRun
           (fresh stateless tt) source tt tt eq_refl eq_refl).
Defined.

Lemma lookup_formatted (url : string) (r : Store) :
  all_formatted r -> pretty (lookup url r) = lookup url r.
Proof.
  unfold all_formatted. induction r as [| [u text] rest IH]; cbn [lookup].
  - intros _. reflexivity.
  - cbn [forallb snd]. intros H. apply andb_true_iff in H as [Ht Hrest].
    destruct (u =? url)%string.
    + apply String.eqb_eq. exact Ht.
    + exact (IH Hrest).
Qed.

(** The second of two runs over the storing remote. *)
Lemma stable_run_is_quiet_witness :
  let first := Main.processObjects stored None [zpkg] realRun
                 (fresh stateless unformatted) in
  let again := fresh stateless (remote (fst first)) in
  (stable_under stored None all_formatted
   /\ all_formatted (remote again))
  /\ (let out := Main.processObjects stored None [zpkg] realRun again in
      count is_mutating (calls (fst out)) = 0
      /\ writtenIncludes (status (fst out)) = 0).
Proof.
  intros first again.
  assert (Hstable : stable_under stored None all_formatted).
  { repeat split.
    - intros incl r src r1 Hr H. injection H as <- <-.
      exists r. unfold Main.formatter.
      cbn [Js.truthy stored client_prettyPrinter].
      rewrite (lookup_formatted (sourceUrl incl) r Hr).
      split; [reflexivity | exact Hr].
    - intros o r incls r1 Hr H. injection H as _ <-. exact Hr.
    - intros p r r1 Hr H. injection H as <-. exact Hr. }
  assert (Hinv : all_formatted (remote again)).
  { vm_compute. reflexivity. }
  split; [split; [exact Hstable | exact Hinv] |].
  exact (stable_run_is_quiet stored None all_formatted Hstable [zpkg] realRun
           again Hinv).
Defined.

(** C5 fails as stated: a failing configuration load ends
    [processObjects] with no summary, no session switch and no
    [dropSession]; and when [dropSession] throws after the loop has thrown,
    the caller gets the error of [dropSession], not that of the loop. *)
Lemma cleanup_is_conditional :
  (let out := Main.processObjects configFails (Some "abaplint.json") [zpkg]
                realRun (fresh stateless tt) in
   snd out = inl configError
   /\ calls (fst out) = [ELoadAbapLintConfig "abaplint.json"]
   /\ session (fst out) = stateless)
  /\ (let entered := fst (set_session stateful (fresh stateless tt)) in
      let out := Main.processObjects readAndDropFail None [zpkg] realRun
                   (fresh stateless tt) in
      snd (Main.objectLoop readAndDropFail None [zpkg] realRun entered)
      = inl readError
      /\ snd out = inl dropError
      /\ dropError <> readError).
Proof. vm_compute. repeat split; discriminate. Qed.

Lemma processObjects_cleanup_witness :
  Main.loadConfig readFails None (fresh stateless tt)
  = (fresh stateless tt, inr tt)
  /\ (let out := Main.processObjects readFails None [zpkg] realRun
                   (fresh stateless tt) in
      calls (fst out)
      = [ESetSession stateful;
         EActionStart "DEVC/K ZPKG" None;
         EExpand zpkg;
         EActionStart "+DEVC/K ZPKG" None;
         EActionStop None;
         EActionStart (TAB ++ "PROG/P ZFOO") (Some " Reading...");
         EGetObjectSource (sourceUrl zfoo);
         EActionStop (Some "failed!");
         ELog "Last object DEVC/K ZPKG";
         ELog "Last include PROG/P ZFOO";
         ELog (NL ++ "0 of 1 objects / 0 includes processed 0 written" ++ NL);
         ESetSession stateless;
         EDropSession]
      /\ session (fst out) = stateless
      /\ status (fst out)
         = {| currentObject := Some zpkg; currentInclude := Some zfoo;
              processedObjects := 0; processedIncludes := 0;
              writtenIncludes := 0 |}
      /\ snd out = inl readError).
Proof.
  split; [reflexivity |].
  exact (processObjects_cleanup readFails None [zpkg] realRun
           (fresh stateless tt)).
Defined.

Lemma activate_single_retry_witness :
  (incl_type zfoo =? "PROG/I") = false
  /\ (let out := Main.activate needsRetry zfoo (fresh stateless tt) in
      snd out = inr activeResult
      /\ remote (fst out) = tt
      /\ calls (fst out)
         = [EActivate "ZFOO" (sourceUrl zfoo) None;
            EActivateObjects [dep1; dep2]]).
Proof.
  split; [reflexivity |].
  exact (activate_single_retry needsRetry zfoo (fresh stateless tt) eq_refl).
Defined.

Example dry_run_validates_transport :
  let opts := {| test := true; transport := Some "K900002" |} in
  Main.write allGood zfoo formatted transportLock opts (fresh stateless tt)
  = (fresh stateless tt,
     inl (CLIError
       "Object PROG/P ZFOO locked in transport K900001 can't use K900002")).
Proof. reflexivity. Qed.

Lemma dry_run_counts_written_witness :
  (Js.truthy (LOCK_HANDLE localLock) = true
   /\ Main.validateTransport localLock (Main.key_of zfoo) None = inr tt
   /\ client_unLock allGood (sourceUrl zfoo) (LOCK_HANDLE localLock) tt
      = (inr tt, tt))
  /\ (let out := Main.write allGood zfoo formatted localLock dryRun
                   (fresh stateless tt) in
      let unlock := EUnLock (sourceUrl zfoo) (Some "HANDLE") in
      snd out = inr tt
      /\ writtenIncludes (status (fst out)) = 1
      /\ In {| ev := unlock; at_status := initial_status |} (trace (fst out))
      /\ collaborator_calls (calls (fst out)) = [unlock]
      /\ calls (fst (Main.stats allGood 1 (fst out)))
         = calls (fst out)
           ++ [ELog (NL ++ "0 of 1 objects / 0 includes processed 1 written"
                     ++ NL)]
      /\ exists before : string,
           Main.stats_message (status (fst out)) 1
           = (before ++ "1" ++ " written" ++ NL)%string).
Proof.
  split; [repeat split |].
  exact (dry_run_counts_written allGood zfoo formatted localLock None
           (fresh stateless tt) tt 1 eq_refl eq_refl eq_refl).
Defined.

(** C8 fails as stated: after [write] has counted the include and before
    [processInclude] has, [cli.action.stop()] is called with
    writtenIncludes = 1 and processedIncludes = 0; and a run that fails
    inside an include's pipeline ends with [currentInclude] still set. *)
Lemma counters_transiently_unordered :
  (let out := Main.processObjects allGood None [zpkg] dryRun
                (fresh stateless tt) in
   snd out = inr tt
   /\ In {| ev := EActionStop None;
            at_status :=
              {| currentObject := Some zpkg; currentInclude := Some zfoo;
                 processedObjects := 0; processedIncludes := 0;
                 writtenIncludes := 1 |} |}
         (trace (fst out)))
  /\ (let out := Main.processObjects readFails None [zpkg] realRun
                   (fresh stateless tt) in
      snd out = inl readError
      /\ currentInclude (status (fst out)) = Some zfoo).
Proof. vm_compute. repeat split. auto 40. Qed.

Example end_to_end_checkpoints :
  let out := Main.processObjects endToEnd None [zpkg] realRun
               (fresh stateless tt) in
  run_ok 0 (trace (fst out)) = true /\ started (trace (fst out)) = 2.
Proof. vm_compute. split; reflexivity. Qed.

Lemma list_manifest_witness :
  ("objects.txt" <> EmptyString
   /\ readFileSync (manifestOf threeLines) "objects.txt" tt
      = (inr threeLines, tt))
  /\ (let out := Main.list (manifestOf threeLines) EmptyString EmptyString
                   (fromFile "objects.txt") (fresh stateless tt) in
      calls (fst out) = [EReadFile "objects.txt"]
      /\ snd out
         = inr [ {| obj_type := "PROG/P"; obj_name := "ZFOO";
                    obj_url :=
                      Some "/sap/bc/adt/programs/programs/zfoo" |};
                 {| obj_type := "CLAS/OC"; obj_name := "ZCL_BAR";
                    obj_url := Some "/sap/bc/adt/oo/classes/zcl_bar" |} ]).
Proof.
  split; [split; [discriminate | reflexivity] |].
  exact (list_manifest (manifestOf threeLines) "objects.txt" threeLines false
           (fresh stateless tt) tt
           (fun H => eq_ind "objects.txt"
                       (fun s => match s with
                                 | EmptyString => False
                                 | String _ _ => True
                                 end) I EmptyString H)
           eq_refl).
Defined.

(** A first line that holds a path separator is a row. *)
Example manifest_without_header :
  snd (Main.list (manifestOf noHeader) EmptyString EmptyString
         (fromFile "objects.txt") (fresh stateless tt))
  = inr [ {| obj_type := "PROG/P"; obj_name := "ZFOO";
             obj_url := Some "/sap/bc/adt/programs/programs/zfoo" |};
          {| obj_type := "CLAS/OC"; obj_name := "ZCL_BAR";
             obj_url := Some "/sap/bc/adt/oo/classes/zcl_bar" |} ].
Proof. reflexivity. Qed.

(** C9 fails as stated: the error for a missing url on the third line
    of the file carries no line number, and the error for an unsupported
    type on the third line of the file says line 0. *)
Lemma manifest_errors_line_number :
  snd (Main.list (manifestOf urlMissing) EmptyString EmptyString
         (fromFile "objects.txt") (fresh stateless tt))
  = inl (CLIError
           "URL not specified for object PROG/P ZFOO in file objects.txt")
  /\ snd (Main.list (manifestOf badType) EmptyString EmptyString
            (fromFile "objects.txt") (fresh stateless tt))
     = inl (CLIError
         "Objects of type TABL/DT are not supportes near line 0 of file objects.txt").
Proof. split; reflexivity. Qed.

(** ** Witnesses of the further properties *)

Lemma activate_program_include_witness :
  (incl_type zinc =? "PROG/I") = true
  /\ (let out := Main.activate needsRetry zinc (fresh stateless tt) in
      snd out = inr twoInactive
      /\ remote (fst out) = tt
      /\ calls (fst out)
         = [EMainPrograms (metaUrl zinc);
            EActivate "ZINC" (sourceUrl zinc)
              (Some "/sap/bc/adt/programs/zmain")]).
Proof.
  split; [reflexivity |].
  exact (activate_program_include needsRetry zinc (fresh stateless tt)
           eq_refl).
Defined.

Lemma write_real_run_outcome_witness :
  (Js.truthy (LOCK_HANDLE localLock) = true
   /\ Main.validateTransport localLock (Main.key_of zfoo) None = inr tt
   /\ client_setObjectSource activationFails (sourceUrl zfoo) formatted
        (LOCK_HANDLE localLock) None tt = (inr tt, tt)
   /\ client_unLock activationFails (sourceUrl zfoo) (LOCK_HANDLE localLock)
        tt = (inr tt, tt)
   /\ activation_outcome activationFails zfoo tt = (inr syntaxError, tt))
  /\ (let out := Main.write activationFails zfoo formatted localLock realRun
                   (fresh stateless tt) in
      remote (fst out) = tt
      /\ count is_setObjectSource (calls (fst out)) = 1
      /\ count is_unlock (calls (fst out)) = 1
      /\ snd out = inl (CLIError "Syntax error in ZFOO")
      /\ status (fst out) = initial_status).
Proof.
  split; [repeat split |].
  exact (write_real_run_outcome activationFails zfoo formatted localLock None
           (fresh stateless tt) tt tt tt syntaxError
           eq_refl eq_refl eq_refl eq_refl eq_refl).
Defined.

Lemma list_query_mode_witness :
  (Js.truthy (file {| file := None; recursive := true |}) = false
   /\ "DEVC/K" <> EmptyString /\ "ZPKG" <> EmptyString)
  /\ (let out := Main.list packageQuery "DEVC/K" "ZPKG"
                   {| file := None; recursive := true |}
                   (fresh stateless tt) in
      snd out = inr [zprog; zclass]
      /\ remote (fst out) = tt
      /\ status (fst out) = initial_status
      /\ calls (fst out)
         = [EListQuery "DEVC/K" "ZPKG" true;
            EActionStart "Listing ZPKG" None;
            EActionStart "Listing ZSUB" None;
            EActionStop (Some "Done")]).
Proof.
  split; [split; [reflexivity | split; discriminate] |].
  apply (list_query_mode packageQuery "DEVC/K" "ZPKG"
           {| file := None; recursive := true |} (fresh stateless tt));
    [reflexivity | discriminate | discriminate].
Defined.

Lemma manifest_blank_line_throws_witness :
  (blank crLine = true /\ crLine <> EmptyString)
  /\ Main.keepLine crLine 2 = true
  /\ Main.keepLine EmptyString 2 = false
  /\ is_error (Main.parseRow allGood "objects.txt" 2 (Js.split_ws3 crLine))
     = true.
Proof.
  split; [split; [reflexivity | discriminate] |].
  apply (manifest_blank_line_throws allGood "objects.txt" crLine 1);
    [reflexivity | discriminate].
Defined.

Lemma manifest_row_trailing_text_witness :
  (is_field "PROG/P" = true /\ is_field "ZFOO" = true
   /\ is_field "/sap/bc/adt/programs/programs/zfoo" = true
   /\ Js.is_space CR = true)
  /\ Main.parseRow allGood "objects.txt" 0
       (Js.split_ws3
          (row_text "PROG/P" "ZFOO" "/sap/bc/adt/programs/programs/zfoo"
             ++ String CR EmptyString))
     = Main.parseRow allGood "objects.txt" 0
         (Js.split_ws3
            (row_text "PROG/P" "ZFOO" "/sap/bc/adt/programs/programs/zfoo"))
  /\ Js.split_ws3
       (row_text "PROG/P" "ZFOO" "/sap/bc/adt/programs/programs/zfoo"
          ++ String CR EmptyString)
     = ("PROG/P", ["ZFOO"; "/sap/bc/adt/programs/programs/zfoo"]).
Proof.
  split; [repeat split |].
  exact (manifest_row_trailing_text allGood "objects.txt" "PROG/P" "ZFOO"
           "/sap/bc/adt/programs/programs/zfoo" EmptyString 0 CR
           eq_refl eq_refl eq_refl eq_refl).
Defined.

Lemma manifest_round_trip_witness :
  (no_newline "TYPE NAME URL" = true
   /\ Js.contains_char SLASH "TYPE NAME URL" = false
   /\ forallb (listable allGood) [zprog; zclass] = true)
  /\ Main.parseManifest allGood "objects.txt"
       (join_lines ("TYPE NAME URL" :: map descriptor_line [zprog; zclass]))
     = inr [zprog; zclass].
Proof.
  split; [repeat split |].
  exact (manifest_round_trip allGood "objects.txt" "TYPE NAME URL"
           [zprog; zclass] eq_refl eq_refl eq_refl).
Defined.
